(** * A contact directory: phones, birthdays, records and the address book

    A shallow embedding of [task_one.py] and the properties of its
    validated fields ([Phone], [Birthday]), of [Record] and of
    [AddressBook].

    Conventions of the embedding:
    - a Python [str] is a list of Unicode code points ([str := list Z]);
      [len] is the length of that list;
    - a Python [int] is a [Z];
    - a call that may raise returns a [result]; a method that may raise
      after or before it mutates [self] is a computation in the monad
      [M], which hands back the object's state together with the outcome,
      also when the outcome is an exception;
    - "now" is an argument ([today]) of the functions that read the clock;
    - the library calls the program makes ([str.isdigit], [len],
      [datetime.strptime], [date.replace], [date.strftime], date
      subtraction, [list.index], [list.remove], [dict]) are modelled
      after CPython (3.11, Unicode 14.0.0). *)

From Stdlib Require Import ZArith List String Ascii Bool Lia.
Import ListNotations.
Open Scope Z_scope.

(** ** Strings *)

Definition char := Z.
Definition str := list char.

(** A literal of the model, from a literal of Rocq (one code point per
    character: the literals used here are ASCII). *)
Fixpoint lit (s : string) : str :=
  match s with
  | EmptyString => []
  | String a s' => Z.of_N (N_of_ascii a) :: lit s'
  end.

Definition len (s : str) : Z := Z.of_nat (List.length s).

Definition char_eqb (a b : char) : bool := a =? b.

Fixpoint str_eqb (a b : str) : bool :=
  match a, b with
  | [], [] => true
  | x :: a', y :: b' => (x =? y) && str_eqb a' b'
  | _, _ => false
  end.

(** A table of code point ranges: (first code point, number of code points). *)
Definition in_ranges (table : list (Z * Z)) (c : char) : bool :=
  existsb (fun r => (fst r <=? c) && (c <? fst r + snd r)) table.

(** The code points of general category Nd (decimal digits): what
    [str.isdecimal], the [\d] of [re] on a [str] pattern and [int] accept.
    Every range starts at a digit zero and holds whole runs 0..9. *)
Definition decimal_ranges : list (Z * Z) :=
  [ (0x30, 10); (0x660, 10); (0x6F0, 10); (0x7C0, 10); (0x966, 10);
    (0x9E6, 10); (0xA66, 10); (0xAE6, 10); (0xB66, 10); (0xBE6, 10);
    (0xC66, 10); (0xCE6, 10); (0xD66, 10); (0xDE6, 10); (0xE50, 10);
    (0xED0, 10); (0xF20, 10); (0x1040, 10); (0x1090, 10); (0x17E0, 10);
    (0x1810, 10); (0x1946, 10); (0x19D0, 10); (0x1A80, 10); (0x1A90, 10);
    (0x1B50, 10); (0x1BB0, 10); (0x1C40, 10); (0x1C50, 10); (0xA620, 10);
    (0xA8D0, 10); (0xA900, 10); (0xA9D0, 10); (0xA9F0, 10); (0xAA50, 10);
    (0xABF0, 10); (0xFF10, 10); (0x104A0, 10); (0x10D30, 10); (0x11066, 10);
    (0x110F0, 10); (0x11136, 10); (0x111D0, 10); (0x112F0, 10); (0x11450, 10);
    (0x114D0, 10); (0x11650, 10); (0x116C0, 10); (0x11730, 10); (0x118E0, 10);
    (0x11950, 10); (0x11C50, 10); (0x11D50, 10); (0x11DA0, 10); (0x16A60, 10);
    (0x16AC0, 10); (0x16B50, 10); (0x1D7CE, 50); (0x1E140, 10); (0x1E2F0, 10);
    (0x1E950, 10); (0x1FBF0, 10) ].

(** The code points with Numeric_Type=Digit that are not decimal
    (superscripts, subscripts, circled digits and the like): [str.isdigit]
    accepts them on top of the decimal ones. *)
Definition other_digit_ranges : list (Z * Z) :=
  [ (0xB2, 2); (0xB9, 1); (0x1369, 9); (0x19DA, 1); (0x2070, 1);
    (0x2074, 6); (0x2080, 10); (0x2460, 9); (0x2474, 9); (0x2488, 9);
    (0x24EA, 1); (0x24F5, 9); (0x24FF, 1); (0x2776, 9); (0x2780, 9);
    (0x278A, 9); (0x10A40, 4); (0x10E60, 9); (0x11052, 9); (0x1F100, 11) ].

Definition char_isdecimal (c : char) : bool := in_ranges decimal_ranges c.

Definition char_isdigit (c : char) : bool :=
  char_isdecimal c || in_ranges other_digit_ranges c.

(** [str.isdigit()]: every character is a digit and there is at least one. *)
Definition isdigit (s : str) : bool :=
  match s with
  | [] => false
  | _ => forallb char_isdigit s
  end.

(** The ten ASCII decimal digits, '0' to '9'. *)
Definition ascii_digit (c : char) : bool := (48 <=? c) && (c <=? 57).

(** ** Exceptions and results *)

Inductive exception : Type :=
  | ValueError (msg : string)
  | KeyError (key : str)
  | IndexError (msg : string).

Inductive result (A : Type) : Type :=
  | Ok (a : A)
  | Raise (e : exception).
Arguments Ok {A} a.
Arguments Raise {A} e.

Definition bind_result {A B} (r : result A) (k : A -> result B) : result B :=
  match r with
  | Ok a => k a
  | Raise e => Raise e
  end.

Definition is_ok {A} (r : result A) : bool :=
  match r with Ok _ => true | Raise _ => false end.

Notation "x <- r ;; k" := (bind_result r (fun x => k))
  (at level 61, r at next level, right associativity).

Definition is_ValueError (e : exception) : bool :=
  match e with ValueError _ => true | _ => false end.

(** ** Field, Name *)

Module Name.
Record t : Type := { value : str }.
Definition init (name : str) : t := {| value := name |}.
End Name.

(** ** Phone *)

Module Phone.
Record t : Type := { value : str }.

Definition length_msg : string := "The phone number must contain 10 digits".
Definition digits_msg : string := "The phone number must contain only numbers".

Definition validate_phone (phone : str) : result str :=
  if negb (len phone =? 10) then Raise (ValueError length_msg)
  else if negb (isdigit phone) then Raise (ValueError digits_msg)
  else Ok phone.

Definition init (phone : str) : result t :=
  v <- validate_phone phone ;; Ok {| value := v |}.
End Phone.

(** ** datetime.date *)

Module date.
Record t : Type := { year : Z; month : Z; day : Z }.

Definition MINYEAR : Z := 1.
Definition MAXYEAR : Z := 9999.

Definition is_leap (y : Z) : bool :=
  (y mod 4 =? 0) && (negb (y mod 100 =? 0) || (y mod 400 =? 0)).

(** Number of days before January 1st of year [y]. *)
Definition days_before_year (year : Z) : Z :=
  let y := year - 1 in y * 365 + y / 4 - y / 100 + y / 400.

Definition DAYS_IN_MONTH (m : Z) : Z :=
  match m with
  | 1 => 31 | 2 => 28 | 3 => 31 | 4 => 30 | 5 => 31 | 6 => 30
  | 7 => 31 | 8 => 31 | 9 => 30 | 10 => 31 | 11 => 30 | 12 => 31
  | _ => -1
  end.

Definition days_in_month (y m : Z) : Z :=
  if (m =? 2) && is_leap y then 29 else DAYS_IN_MONTH m.

Definition DAYS_BEFORE_MONTH (m : Z) : Z :=
  match m with
  | 1 => 0 | 2 => 31 | 3 => 59 | 4 => 90 | 5 => 120 | 6 => 151
  | 7 => 181 | 8 => 212 | 9 => 243 | 10 => 273 | 11 => 304 | 12 => 334
  | _ => -1
  end.

Definition days_before_month (y m : Z) : Z :=
  DAYS_BEFORE_MONTH m + (if (2 <? m) && is_leap y then 1 else 0).

Definition ymd2ord (y m d : Z) : Z :=
  days_before_year y + days_before_month y m + d.

(** The checks of the constructor, in its order: year, month, day.
    CPython's message for the year also names the year
    ("year 10000 is out of range"). *)
Definition new (y m d : Z) : result t :=
  if negb ((MINYEAR <=? y) && (y <=? MAXYEAR))
  then Raise (ValueError "year is out of range")
  else if negb ((1 <=? m) && (m <=? 12))
  then Raise (ValueError "month must be in 1..12")
  else if negb ((1 <=? d) && (d <=? days_in_month y m))
  then Raise (ValueError "day is out of range for month")
  else Ok {| year := y; month := m; day := d |}.

(** [d.replace(year=y)]: a new date through the constructor. *)
Definition replace_year (d : t) (y : Z) : result t :=
  new y (month d) (day d).

Definition toordinal (d : t) : Z := ymd2ord (year d) (month d) (day d).

(** [a < b]: the comparison of the (year, month, day) triples. *)
Definition lt (a b : t) : bool :=
  (year a <? year b)
  || ((year a =? year b)
      && ((month a <? month b)
          || ((month a =? month b) && (day a <? day b)))).

(** [(a - b).days] *)
Definition sub_days (a b : t) : Z := toordinal a - toordinal b.

(** What every date object satisfies: it went through [new]. *)
Definition valid (d : t) : Prop :=
  MINYEAR <= year d <= MAXYEAR /\ 1 <= month d <= 12
  /\ 1 <= day d <= days_in_month (year d) (month d).

(** *** strftime *)

(** A non-negative integer in decimal; the fuel covers every digit. *)
Fixpoint decimal_aux (fuel : nat) (n : Z) (acc : str) : str :=
  match fuel with
  | O => acc
  | S fuel' =>
      let acc' := (48 + n mod 10) :: acc in
      if n / 10 =? 0 then acc' else decimal_aux fuel' (n / 10) acc'
  end.

Definition decimal (n : Z) : str :=
  decimal_aux (S (Z.to_nat (Z.log2 n))) n [].

(** Zero-filling on the left up to [width], as [%02d] does. *)
Definition zfill (width : nat) (s : str) : str :=
  repeat 48 (width - List.length s) ++ s.

(** [%Y] is handed to the C library's strftime: glibc prints the year as
    it is (999 for the year 999), other C libraries, and CPython itself
    from 3.13 on, zero-fill it to four digits as the documentation shows. *)
Inductive year_style : Type := YearPlain | YearZeroFilled.

Definition format_Y (style : year_style) (y : Z) : str :=
  match style with
  | YearPlain => decimal y
  | YearZeroFilled => zfill 4 (decimal y)
  end.

(** [d.strftime("%d.%m.%Y")] *)
Definition strftime_dmY (style : year_style) (d : t) : str :=
  zfill 2 (decimal (day d)) ++ [46] ++ zfill 2 (decimal (month d))
    ++ [46] ++ format_Y style (year d).
End date.

(** ** int(str) *)

(** The whitespace [int] strips from both ends of its argument. *)
Definition int_space_ranges : list (Z * Z) :=
  [ (0x9, 5); (0x20, 1); (0x85, 1); (0xA0, 1); (0x1680, 1); (0x2000, 11);
    (0x2028, 2); (0x202F, 1); (0x205F, 1); (0x3000, 1) ].

Definition int_space (c : char) : bool := in_ranges int_space_ranges c.

Fixpoint lstrip (s : str) : str :=
  match s with
  | c :: s' => if int_space c then lstrip s' else s
  | [] => []
  end.

Definition strip (s : str) : str := rev (lstrip (rev (lstrip s))).

(** The value of a decimal digit: its offset in its run of ten. *)
Definition decimal_value (c : char) : option Z :=
  match find (fun r => (fst r <=? c) && (c <? fst r + snd r)) decimal_ranges with
  | Some r => Some ((c - fst r) mod 10)
  | None => None
  end.

(** Digits in base ten, single underscores allowed between two digits. *)
Fixpoint int_digits (s : str) (acc : Z) (after_digit : bool) : option Z :=
  match s with
  | [] => if after_digit then Some acc else None
  | c :: s' =>
      if c =? 95
      then if after_digit then int_digits s' acc false else None
      else match decimal_value c with
           | Some v => int_digits s' (acc * 10 + v) true
           | None => None
           end
  end.

Definition int_msg : string := "invalid literal for int() with base 10".

(** [int(s)] for a [str]: whitespace stripped, an optional sign, digits. *)
Definition int (s : str) : result Z :=
  let body := strip s in
  let signed :=
    match body with
    | c :: r =>
        if c =? 43 then int_digits r 0 false
        else if c =? 45 then option_map Z.opp (int_digits r 0 false)
        else int_digits body 0 false
    | [] => None
    end in
  match signed with
  | Some v => Ok v
  | None => Raise (ValueError int_msg)
  end.

(** ** The regular expressions of [_strptime] *)

Module re.
(** One character of a pattern: a literal, a range [[lo-hi]], or [\d]. *)
Inductive cclass : Type :=
  | Chr (c : char)
  | Rng (lo hi : char)
  | Digit.

Definition class_matches (k : cclass) (c : char) : bool :=
  match k with
  | Chr x => c =? x
  | Rng lo hi => (lo <=? c) && (c <=? hi)
  | Digit => char_isdecimal c
  end.

(** A branch of an alternation: a sequence of character classes. *)
Definition branch := list cclass.

(** A pattern is a sequence of named groups [(?P<name>b1|b2|...)] and of
    escaped literal characters. *)
Inductive item : Type :=
  | Group (name : string) (branches : list branch)
  | Literal (c : char).

Definition regex := list item.

(** A branch against the head of [s]: the text it consumes and the rest. *)
Fixpoint match_branch (b : branch) (s : str) : option (str * str) :=
  match b with
  | [] => Some ([], s)
  | k :: b' =>
      match s with
      | c :: s' =>
          if class_matches k c
          then match match_branch b' s' with
               | Some (txt, rest) => Some (c :: txt, rest)
               | None => None
               end
          else None
      | [] => None
      end
  end.

(** Alternation with backtracking: the first branch, in the order they
    are written, after which the continuation [k] (the rest of the
    pattern) succeeds. *)
Fixpoint first_branch {R} (bs : list branch) (s : str)
    (k : str -> str -> option R) : option R :=
  match bs with
  | [] => None
  | b :: bs' =>
      match match_branch b s with
      | Some (txt, rest) =>
          match k txt rest with
          | Some r => Some r
          | None => first_branch bs' s k
          end
      | None => first_branch bs' s k
      end
  end.

(** [regex.match(s)]: anchored at the start of [s], not at its end.
    The result is the dictionary of the groups and what is left of [s]
    after [found.end()]. *)
Fixpoint match_ (p : regex) (s : str) : option (list (string * str) * str) :=
  match p with
  | [] => Some ([], s)
  | Literal x :: p' =>
      match s with
      | c :: s' => if c =? x then match_ p' s' else None
      | [] => None
      end
  | Group name bs :: p' =>
      first_branch bs s (fun txt rest =>
        match match_ p' rest with
        | Some (groups, rest') => Some ((name, txt) :: groups, rest')
        | None => None
        end)
  end.

Fixpoint groupdict_get (groups : list (string * str)) (name : string)
  : result str :=
  match groups with
  | [] => Raise (KeyError (lit name))
  | (n, txt) :: groups' =>
      if String.eqb n name then Ok txt else groupdict_get groups' name
  end.
End re.

Import re.

(** [%d]: (?P<d>3[0-1]|[1-2]\d|0[1-9]|[1-9]| [1-9]) *)
Definition regex_d : item :=
  Group "d" [ [Chr 51; Rng 48 49]; [Rng 49 50; Digit]; [Chr 48; Rng 49 57];
              [Rng 49 57]; [Chr 32; Rng 49 57] ].

(** [%m]: (?P<m>1[0-2]|0[1-9]|[1-9]) *)
Definition regex_m : item :=
  Group "m" [ [Chr 49; Rng 48 50]; [Chr 48; Rng 49 57]; [Rng 49 57] ].

(** [%Y]: (?P<Y>\d\d\d\d) *)
Definition regex_Y : item :=
  Group "Y" [ [Digit; Digit; Digit; Digit] ].

(** The pattern of the format "%d.%m.%Y"; 46 is the full stop. *)
Definition format_regex : regex :=
  [ regex_d; Literal 46; regex_m; Literal 46; regex_Y ].

(** [datetime.strptime(data_string, "%d.%m.%Y").date()] *)
Definition strptime_dmY (data_string : str) : result date.t :=
  match match_ format_regex data_string with
  | None => Raise (ValueError "time data does not match format")
  | Some (found_dict, rest) =>
      if negb (len rest =? 0)
      then Raise (ValueError "unconverted data remains")
      else
        d <- groupdict_get found_dict "d" ;;
        day <- int d ;;
        m <- groupdict_get found_dict "m" ;;
        month <- int m ;;
        Y <- groupdict_get found_dict "Y" ;;
        year <- int Y ;;
        date.new year month day
  end.

(** ** Birthday *)

Module Birthday.
Record t : Type := { value : date.t }.

Definition format_msg : string := "Invalid date format. Use DD.MM.YYYY".

Definition validate_birthday (birthday : str) : result date.t :=
  match strptime_dmY birthday with
  | Ok d => Ok d
  | Raise (ValueError _) => Raise (ValueError format_msg)
  | Raise e => Raise e
  end.

Definition init (birthday : str) : result t :=
  v <- validate_birthday birthday ;; Ok {| value := v |}.
End Birthday.

(** ** Methods that mutate their object *)

(** A computation over an object of state [S]: the outcome and the state
    the object is left in. An exception keeps the state reached when it
    was raised. *)
Definition M (S A : Type) : Type := S -> result A * S.

Definition ret {S A} (a : A) : M S A := fun s => (Ok a, s).

Definition raise {S A} (e : exception) : M S A := fun s => (Raise e, s).

Definition bind {S A B} (c : M S A) (k : A -> M S B) : M S B :=
  fun s =>
    match c s with
    | (Ok a, s') => k a s'
    | (Raise e, s') => (Raise e, s')
    end.

(** A call that reads the object without changing it. *)
Definition reads {S A} (f : S -> result A) : M S A := fun s => (f s, s).

(** A call that does not touch the object at all. *)
Definition pure {S A} (r : result A) : M S A := fun s => (r, s).

(** An assignment to the object's attributes, which cannot raise. *)
Definition modify {S} (f : S -> S) : M S unit := fun s => (Ok tt, f s).

(** A mutation which may raise, leaving the object as it was. *)
Definition update {S} (f : S -> result S) : M S unit :=
  fun s =>
    match f s with
    | Ok s' => (Ok tt, s')
    | Raise e => (Raise e, s)
    end.

Notation "x <~ c ;; k" := (bind c (fun x => k))
  (at level 61, c at next level, right associativity).

(** ** list *)

Section ListOps.
Context {A : Type} (eqb : A -> A -> bool).

(** [l.index(x)]: the position of the first item equal to [x]. *)
Fixpoint list_index (x : A) (l : list A) : result nat :=
  match l with
  | [] => Raise (ValueError "x is not in list")
  | y :: l' => if eqb y x then Ok O else i <- list_index x l' ;; Ok (S i)
  end.

(** [l.remove(x)]: without the first item equal to [x]. *)
Fixpoint list_remove (x : A) (l : list A) : result (list A) :=
  match l with
  | [] => Raise (ValueError "list.remove(x): x not in list")
  | y :: l' => if eqb y x then Ok l' else r <- list_remove x l' ;; Ok (y :: r)
  end.

(** [l[i] = v] for [i >= 0]. *)
Fixpoint list_setitem (l : list A) (i : nat) (v : A) : result (list A) :=
  match l, i with
  | [], _ => Raise (IndexError "list assignment index out of range")
  | _ :: l', O => Ok (v :: l')
  | y :: l', S i' => r <- list_setitem l' i' v ;; Ok (y :: r)
  end.
End ListOps.

(** [sep.join(parts)] *)
Fixpoint join (sep : str) (parts : list str) : str :=
  match parts with
  | [] => []
  | [p] => p
  | p :: parts' => p ++ sep ++ join sep parts'
  end.

(** ** Record *)

Module Record.
Record t : Type := {
  name : Name.t;
  phones : list Phone.t;
  birthday : option Birthday.t
}.

Definition init (name : str) : t :=
  {| name := Name.init name; phones := []; birthday := None |}.

Definition set_phones (self : t) (l : list Phone.t) : t :=
  {| name := name self; phones := l; birthday := birthday self |}.

Definition set_birthday (self : t) (b : option Birthday.t) : t :=
  {| name := name self; phones := phones self; birthday := b |}.

(** [Phone] defines no [__eq__]: [list.index] and [list.remove] compare
    the objects of the list with the one [find_phone] returned by
    identity. That object is the first one of the list whose value is the
    searched string, and an object has one value: the first identical
    item is the first item of that value, which is what the comparison
    of values finds. *)
Definition phone_is (p q : Phone.t) : bool :=
  str_eqb (Phone.value p) (Phone.value q).

Definition not_found_msg : string := "Phone number not found.".

Definition find_phone (phone : str) (self : t) : result Phone.t :=
  match find (fun p => str_eqb (Phone.value p) phone) (phones self) with
  | Some p => Ok p
  | None => Raise (ValueError not_found_msg)
  end.

Definition add_phone (phone : str) : M t unit :=
  phone_obj <~ pure (Phone.init phone) ;;
  modify (fun self => set_phones self (phones self ++ [phone_obj])).

Definition remove_phone (phone : str) : M t unit :=
  phone_obj <~ reads (find_phone phone) ;;
  update (fun self =>
    l <- list_remove phone_is phone_obj (phones self) ;;
    Ok (set_phones self l)).

Definition edit_phone (old_phone new_phone : str) : M t unit :=
  old_phone_obj <~ reads (find_phone old_phone) ;;
  new_phone_obj <~ pure (Phone.init new_phone) ;;
  index <~ reads (fun self => list_index phone_is old_phone_obj (phones self)) ;;
  update (fun self =>
    l <- list_setitem (phones self) index new_phone_obj ;;
    Ok (set_phones self l)).

Definition add_birthday (birthday : str) : M t unit :=
  b <~ pure (Birthday.init birthday) ;;
  modify (fun self => set_birthday self (Some b)).

(** [days_to_birthday()], where [today] is the date
    [datetime.now().date()] gives. A [Birthday] object is always true:
    the test [not self.birthday] holds for [None] only. *)
Definition days_to_birthday (today : date.t) (self : t) : result (option Z) :=
  match birthday self with
  | None => Ok None
  | Some b =>
      next_birthday <- date.replace_year (Birthday.value b) (date.year today) ;;
      next_birthday <-
        (if date.lt next_birthday today
         then date.replace_year next_birthday (date.year today + 1)
         else Ok next_birthday) ;;
      Ok (Some (date.sub_days next_birthday today))
  end.

(** [__str__] *)
Definition to_str (style : date.year_style) (self : t) : str :=
  let phones := join (lit "; ") (map Phone.value (phones self)) in
  let birthday :=
    match birthday self with
    | Some b => date.strftime_dmY style (Birthday.value b)
    | None => lit "No birthday"
    end in
  lit "Contact name: " ++ Name.value (name self) ++ lit ", phones: "
    ++ phones ++ lit ", birthday: " ++ birthday.
End Record.

(** ** dict *)

(** A [dict] keeps its items in the order the keys were first inserted:
    an association list without repeated keys. *)
Section Dict.
Context {V : Type}.

Definition dict := list (str * V).

Fixpoint dict_contains (d : dict) (k : str) : bool :=
  match d with
  | [] => false
  | (k', _) :: d' => str_eqb k' k || dict_contains d' k
  end.

(** [d[k]] *)
Fixpoint dict_getitem (d : dict) (k : str) : result V :=
  match d with
  | [] => Raise (KeyError k)
  | (k', v) :: d' => if str_eqb k' k then Ok v else dict_getitem d' k
  end.

(** [d[k] = v]: a key already there keeps its place. *)
Fixpoint dict_setitem (d : dict) (k : str) (v : V) : dict :=
  match d with
  | [] => [(k, v)]
  | (k', v') :: d' =>
      if str_eqb k' k then (k', v) :: d' else (k', v') :: dict_setitem d' k v
  end.

(** [del d[k]] *)
Fixpoint dict_delitem (d : dict) (k : str) : result dict :=
  match d with
  | [] => Raise (KeyError k)
  | (k', v) :: d' =>
      if str_eqb k' k then Ok d'
      else r <- dict_delitem d' k ;; Ok ((k', v) :: r)
  end.

Definition dict_keys (d : dict) : list str := map fst d.
Definition dict_values (d : dict) : list V := map snd d.

(** No key twice: what every [dict] satisfies. *)
Definition dict_wf (d : dict) : Prop := NoDup (dict_keys d).
End Dict.
Arguments dict V : clear implicits.

(** ** AddressBook *)

Module AddressBook.
(** [self.data] of the [UserDict]. *)
Definition t : Type := dict Record.t.

Definition init : t := [].

Definition not_found_msg : string := "Record not found.".

Definition add_record (record : Record.t) : M t unit :=
  modify (fun data => dict_setitem data (Name.value (Record.name record)) record).

Definition find (name : str) (data : t) : result Record.t :=
  if dict_contains data name then dict_getitem data name
  else Raise (ValueError not_found_msg).

Definition delete (name : str) : M t unit :=
  present <~ reads (fun data => Ok (dict_contains data name)) ;;
  if (present : bool)
  then update (fun data => dict_delitem data name)
  else raise (ValueError not_found_msg).

(** The loop of [get_upcoming_birthdays] over [records], with the list
    built so far. *)
Fixpoint upcoming_loop (today : date.t) (days : Z) (records : list Record.t)
    (upcoming_birthdays : list Record.t) : result (list Record.t) :=
  match records with
  | [] => Ok upcoming_birthdays
  | record :: records' =>
      match Record.birthday record with
      | Some _ =>
          days_to_birthday <- Record.days_to_birthday today record ;;
          match days_to_birthday with
          | Some n =>
              if n <=? days
              then upcoming_loop today days records' (upcoming_birthdays ++ [record])
              else upcoming_loop today days records' upcoming_birthdays
          | None => upcoming_loop today days records' upcoming_birthdays
          end
      | None => upcoming_loop today days records' upcoming_birthdays
      end
  end.

Definition get_upcoming_birthdays (today : date.t) (days : Z) (data : t)
  : result (list Record.t) :=
  upcoming_loop today days (dict_values data) [].
End AddressBook.

(** ** The demo driver *)

(** [Field.__str__]: [str(self.value)], the value of a name and of a
    phone being a [str]. *)
Definition Name_str (n : Name.t) : str := Name.value n.
Definition Phone_str (p : Phone.t) : str := Phone.value p.

(** [print(line)]: the state of the driver is the lines printed so far. *)
Definition print (line : str) : M (list str) unit :=
  fun out => (Ok tt, out ++ [line]).

Fixpoint print_all (lines : list str) : M (list str) unit :=
  match lines with
  | [] => ret tt
  | line :: lines' => _ <~ print line ;; print_all lines'
  end.

(** A method call on an object held in a local variable: the object
    after the call, or the exception, which ends the driver. *)
Definition on {S A} (c : M S A) (obj : S) : M (list str) S :=
  fun out =>
    match c obj with
    | (Ok _, obj') => (Ok obj', out)
    | (Raise e, _) => (Raise e, out)
    end.

(** [main()], the clock giving [today]. [john] is the object the book
    holds under "John": what [edit_phone] does to it, it does to the
    entry of the book. *)
Definition main (style : date.year_style) (today : date.t)
  : M (list str) unit :=
  let book := AddressBook.init in
  john_record <~ on (Record.add_phone (lit "0937777777"))
                    (Record.init (lit "John")) ;;
  john_record <~ on (Record.add_phone (lit "5555555555")) john_record ;;
  john_record <~ on (Record.add_birthday (lit "25.12.1990")) john_record ;;
  book <~ on (AddressBook.add_record john_record) book ;;
  jane_record <~ on (Record.add_phone (lit "9876543210"))
                    (Record.init (lit "Jane")) ;;
  jane_record <~ on (Record.add_birthday (lit "01.01.1995")) jane_record ;;
  book <~ on (AddressBook.add_record jane_record) book ;;
  _ <~ print_all (map (Record.to_str style) (dict_values book)) ;;
  john <~ pure (AddressBook.find (lit "John") book) ;;
  john <~ on (Record.edit_phone (lit "0937777777") (lit "0936666666")) john ;;
  let book := dict_setitem book (lit "John") john in
  _ <~ print (Record.to_str style john) ;;
  found_phone <~ pure (Record.find_phone (lit "5555555555") john) ;;
  _ <~ print (Name_str (Record.name john) ++ lit ": " ++ Phone_str found_phone) ;;
  book <~ on (AddressBook.delete (lit "Jane")) book ;;
  _ <~ print (lit "Jane's record deleted.") ;;
  _ <~ print_all (map (Record.to_str style) (dict_values book)) ;;
  vova_record <~ on (Record.add_phone (lit "0934563292"))
                    (Record.init (lit "Vovan")) ;;
  vova_record <~ on (Record.add_birthday (lit "31.07.1992")) vova_record ;;
  book <~ on (AddressBook.add_record vova_record) book ;;
  upcoming_birthdays <~
    pure (AddressBook.get_upcoming_birthdays today 7 book) ;;
  print_all
    (map (fun record => lit "Upcoming birthday: " ++ Record.to_str style record)
       upcoming_birthdays).

(** * The vocabulary of the properties *)

(** Two tables of ranges without a common code point. *)
Definition ranges_disjoint (t1 t2 : list (Z * Z)) : bool :=
  forallb (fun r =>
    forallb (fun q => (fst r + snd r <=? fst q) || (fst q + snd q <=? fst r)) t2)
    t1.

(** The reading of the claim: exactly ten characters, each '0' to '9'. *)
Definition ten_ascii_digits (s : str) : bool :=
  (len s =? 10) && forallb ascii_digit s.

(** What the constructor checks: ten characters, each a digit of
    [str.isdigit]. *)
Definition ten_digits (s : str) : bool :=
  (len s =? 10) && forallb char_isdigit s.

(** Ten times SUPERSCRIPT TWO (U+00B2): a digit for [str.isdigit], not a
    decimal digit, not ASCII. *)
Definition ten_superscript_twos : str := repeat 0xB2 10.

(** The texts a branch denotes, and the texts an alternation denotes. *)
Fixpoint branch_accepts (b : branch) (txt : str) : bool :=
  match b, txt with
  | [], [] => true
  | k :: b', c :: txt' => class_matches k c && branch_accepts b' txt'
  | _, _ => false
  end.

Definition accepts (bs : list branch) (txt : str) : bool :=
  existsb (fun b => branch_accepts b txt) bs.

Definition group_branches (it : item) : list branch :=
  match it with
  | Group _ bs => bs
  | Literal _ => []
  end.

(** The matches of a pattern at the head of a string, without an order
    among them: the groups and the rest. *)
Inductive matches : regex -> str -> list (string * str) -> str -> Prop :=
  | matches_nil s : matches [] s [] s
  | matches_literal x p s groups rest :
      matches p s groups rest ->
      matches (Literal x :: p) (x :: s) groups rest
  | matches_group name bs b txt p s groups rest :
      In b bs -> branch_accepts b txt = true ->
      matches p s groups rest ->
      matches (Group name bs :: p) (txt ++ s) ((name, txt) :: groups) rest.

Definition day_branches : list branch := group_branches regex_d.
Definition month_branches : list branch := group_branches regex_m.
Definition year_branches : list branch := group_branches regex_Y.

(** A text of the form day.month.year with something left over. *)
Definition dmY_shape (s d m y rest : str) : Prop :=
  s = d ++ 46 :: m ++ 46 :: y ++ rest
  /\ accepts day_branches d = true
  /\ accepts month_branches m = true
  /\ accepts year_branches y = true.

Definition dmY_groups (d m y : str) : list (string * str) :=
  [("d"%string, d); ("m"%string, m); ("Y"%string, y)].

(** [s] reads as the date [dt]: day.month.year with nothing left over,
    the three numbers naming a date. *)
Definition reads_as (s : str) (dt : date.t) : Prop :=
  exists d m y day month year,
    dmY_shape s d m y []
    /\ int d = Ok day /\ int m = Ok month /\ int y = Ok year
    /\ date.new year month day = Ok dt.

(** The number a text of decimal digits denotes; a space counts for
    nothing. *)
Definition number (txt : str) : Z :=
  fold_left
    (fun acc c => acc * 10 + match decimal_value c with Some v => v | None => 0 end)
    txt 0.

(** The characters [int] gives a meaning of their own: whitespace, the
    two signs and the underscore. *)
Definition int_special_ranges : list (Z * Z) :=
  int_space_ranges ++ [ (43, 1); (45, 1); (95, 1) ].

(** A character class made of ASCII digits only, or [\d]. *)
Definition digit_class (k : cclass) : bool :=
  match k with
  | Chr x => ascii_digit x
  | Rng lo hi => ascii_digit lo && ascii_digit hi
  | Digit => true
  end.

Definition digit_of (c : char) : Z := c - 48.

(** The reading of the claim: two digits, a full stop, two digits, a
    full stop, four digits, the digits being '0' to '9' and the three
    numbers naming a date of the calendar. *)
Definition strict_DDMMYYYY (s : str) : option date.t :=
  match s with
  | [d1; d2; p; m1; m2; q; y1; y2; y3; y4] =>
      if forallb ascii_digit [d1; d2; m1; m2; y1; y2; y3; y4]
         && (p =? 46) && (q =? 46)
      then
        match date.new
                (1000 * digit_of y1 + 100 * digit_of y2
                 + 10 * digit_of y3 + digit_of y4)
                (10 * digit_of m1 + digit_of m2)
                (10 * digit_of d1 + digit_of d2) with
        | Ok dt => Some dt
        | Raise _ => None
        end
      else None
  | _ => None
  end.

(** The text of the claim's counterexample: the year 999 written with
    four digits. *)
Definition year_0999 : str := lit "01.01.0999".

Definition days_in_year (y : Z) : Z := if date.is_leap y then 366 else 365.

(** The birthday of the claim's counterexample, and a day after it in a
    leap year. *)
Definition leap_day_2000 : date.t :=
  {| date.year := 2000; date.month := 2; date.day := 29 |}.

Definition first_of_march_2024 : date.t :=
  {| date.year := 2024; date.month := 3; date.day := 1 |}.

Definition leap_day_record : Record.t :=
  {| Record.name := Name.init (lit "Leap");
     Record.phones := [];
     Record.birthday := Some {| Birthday.value := leap_day_2000 |} |}.

Definition john_birthday : date.t :=
  {| date.year := 1990; date.month := 12; date.day := 25 |}.

Definition john_record : Record.t :=
  {| Record.name := Name.init (lit "John");
     Record.phones := [];
     Record.birthday := Some {| Birthday.value := john_birthday |} |}.

Definition some_today : date.t :=
  {| date.year := 2024; date.month := 12; date.day := 20 |}.

(** The records [get_upcoming_birthdays] keeps: a birthday set, and at
    most [days] days to wait. *)
Definition is_upcoming (today : date.t) (days : Z) (r : Record.t) : bool :=
  match Record.birthday r, Record.days_to_birthday today r with
  | Some _, Ok (Some n) => n <=? days
  | _, _ => false
  end.

(** A directory with one record, born on 29 February, and a day of a
    year that is not a leap year. *)
Definition leap_day_book : AddressBook.t := [(lit "Leap", leap_day_record)].

Definition new_year_2023 : date.t :=
  {| date.year := 2023; date.month := 1; date.day := 1 |}.

Definition jane_record : Record.t :=
  {| Record.name := Name.init (lit "Jane");
     Record.phones := [];
     Record.birthday :=
       Some {| Birthday.value :=
                 {| date.year := 1995; date.month := 1; date.day := 1 |} |} |}.

Definition demo_book : AddressBook.t :=
  [(lit "John", john_record); (lit "Jane", jane_record)].

(** The phones of [r] are [l1], then a phone of value [v], then [l2],
    and no phone of [l1] has the value [v]: the first phone of value [v]
    stands at position [length l1]. *)
Definition first_phone_at (r : Record.t) (l1 : list Phone.t) (p : Phone.t)
    (l2 : list Phone.t) (v : str) : Prop :=
  Record.phones r = l1 ++ p :: l2
  /\ Phone.value p = v
  /\ (forall z, In z l1 -> Phone.value z <> v).

Definition no_phone (r : Record.t) (v : str) : Prop :=
  forall z, In z (Record.phones r) -> Phone.value z <> v.

Definition phones_valid (r : Record.t) : Prop :=
  Forall (fun p => ten_digits (Phone.value p) = true) (Record.phones r).

(** The reading of the claim: every phone of the record is exactly ten
    ASCII digits. *)
Definition phones_ascii (r : Record.t) : bool :=
  forallb (fun p => ten_ascii_digits (Phone.value p)) (Record.phones r).

(** The calls of the interface of a record that mutate it. *)
Inductive call : Type :=
  | AddPhone (phone : str)
  | RemovePhone (phone : str)
  | EditPhone (old_phone new_phone : str)
  | AddBirthday (birthday : str).

Definition run_call (c : call) : M Record.t unit :=
  match c with
  | AddPhone phone => Record.add_phone phone
  | RemovePhone phone => Record.remove_phone phone
  | EditPhone old_phone new_phone => Record.edit_phone old_phone new_phone
  | AddBirthday birthday => Record.add_birthday birthday
  end.

(** The record after a sequence of calls, those that raise included. *)
Definition run_calls (cs : list call) (r : Record.t) : Record.t :=
  fold_left (fun r c => snd (run_call c r)) cs r.

Definition three_phones : Record.t :=
  {| Record.name := Name.init (lit "John");
     Record.phones := [ {| Phone.value := lit "0937777777" |};
                        {| Phone.value := lit "5555555555" |};
                        {| Phone.value := lit "9876543210" |} ];
     Record.birthday := None |}.

(** The directory without the entry of [name], the others in their
    order. *)
Definition without (name : str) (data : AddressBook.t) : AddressBook.t :=
  filter (fun kv => negb (str_eqb (fst kv) name)) data.

Definition new_year_2024 : date.t :=
  {| date.year := 2024; date.month := 1; date.day := 2 |}.

Definition christmas_2024 : date.t :=
  {| date.year := 2024; date.month := 12; date.day := 25 |}.

(** The birthday is a 29 February. *)
Definition is_leap_day (d : date.t) : bool :=
  (date.month d =? 2) && (date.day d =? 29).

(** The month and the day of [d] come before those of [today]. *)
Definition before_in_year (d today : date.t) : bool :=
  (date.month d <? date.month today)
  || ((date.month d =? date.month today) && (date.day d <? date.day today)).

Definition has_birthday (r : Record.t) : bool :=
  match Record.birthday r with Some _ => true | None => false end.

(** The phones of a record as [__str__] shows them. *)
Definition phones_text (r : Record.t) : str :=
  join (lit "; ") (map Phone.value (Record.phones r)).

(** The birthday of a record as [__str__] shows it. *)
Definition birthday_text (style : date.year_style) (r : Record.t) : str :=
  match Record.birthday r with
  | Some b => date.strftime_dmY style (Birthday.value b)
  | None => lit "No birthday"
  end.

(** What the driver prints before it asks for the upcoming birthdays. *)
Definition main_listing : list str :=
  [ lit "Contact name: John, phones: 0937777777; 5555555555, birthday: 25.12.1990";
    lit "Contact name: Jane, phones: 9876543210, birthday: 01.01.1995";
    lit "Contact name: John, phones: 0936666666; 5555555555, birthday: 25.12.1990";
    lit "John: 5555555555";
    lit "Jane's record deleted.";
    lit "Contact name: John, phones: 0936666666; 5555555555, birthday: 25.12.1990" ].

(** The book of the driver when it asks for the upcoming birthdays. *)
Definition john_edited : Record.t :=
  {| Record.name := Name.init (lit "John");
     Record.phones := [ {| Phone.value := lit "0936666666" |};
                        {| Phone.value := lit "5555555555" |} ];
     Record.birthday := Some {| Birthday.value := john_birthday |} |}.

Definition vova_record : Record.t :=
  {| Record.name := Name.init (lit "Vovan");
     Record.phones := [ {| Phone.value := lit "0934563292" |} ];
     Record.birthday :=
       Some {| Birthday.value :=
                 {| date.year := 1992; date.month := 7; date.day := 31 |} |} |}.

Definition main_book : AddressBook.t :=
  [(lit "John", john_edited); (lit "Vovan", vova_record)].

Definition upcoming_line (r : Record.t) : str :=
  if str_eqb (Name.value (Record.name r)) (lit "John")
  then lit "Upcoming birthday: Contact name: John, phones: 0936666666; 5555555555, birthday: 25.12.1990"
  else lit "Upcoming birthday: Contact name: Vovan, phones: 0934563292, birthday: 31.07.1992".

(** * Properties *)

(** ** Characters *)

Lemma in_ranges_spec table c :
  in_ranges table c = true <->
  exists lo n, In (lo, n) table /\ lo <= c < lo + n.
Proof.
  unfold in_ranges. rewrite existsb_exists. split.
  - intros [[lo n] [Hin H]]. apply andb_true_iff in H. cbn in H.
    exists lo, n. split; [assumption | lia].
  - intros (lo & n & Hin & H). exists (lo, n). split; [assumption |].
    cbn. apply andb_true_iff. lia.
Qed.

Ltac bool_to_Z :=
  repeat rewrite ?orb_true_iff, ?andb_true_iff, ?orb_false_iff,
    ?andb_false_iff, ?negb_true_iff, ?negb_false_iff,
    ?Z.leb_le, ?Z.ltb_lt, ?Z.eqb_eq, ?Z.leb_gt, ?Z.ltb_ge, ?Z.eqb_neq in *.

Lemma ascii_digit_spec c : ascii_digit c = true <-> 48 <= c <= 57.
Proof. unfold ascii_digit. bool_to_Z. lia. Qed.

Lemma in_ranges_above bound table c :
  forallb (fun r => bound <=? fst r) table = true -> c < bound ->
  in_ranges table c = false.
Proof.
  intros Ht Hc. unfold in_ranges.
  induction table as [| r table IH]; [reflexivity |].
  cbn [forallb existsb] in *. apply andb_true_iff in Ht.
  destruct Ht as [Hr Ht]. rewrite (IH Ht), orb_false_r.
  apply Z.leb_le in Hr. apply andb_false_iff. left. apply Z.leb_gt. lia.
Qed.

Lemma ranges_disjoint_spec t1 t2 c :
  ranges_disjoint t1 t2 = true -> in_ranges t1 c = true ->
  in_ranges t2 c = false.
Proof.
  intros Hd H1. destruct (in_ranges t2 c) eqn:H2; [| reflexivity].
  apply in_ranges_spec in H1, H2.
  destruct H1 as (lo1 & n1 & Hin1 & Hc1), H2 as (lo2 & n2 & Hin2 & Hc2).
  unfold ranges_disjoint in Hd. rewrite forallb_forall in Hd.
  specialize (Hd _ Hin1). rewrite forallb_forall in Hd.
  specialize (Hd _ Hin2). cbn [fst snd] in Hd.
  apply orb_true_iff in Hd. rewrite !Z.leb_le in Hd. lia.
Qed.

Lemma char_isdecimal_ascii c :
  c < 128 -> char_isdecimal c = ascii_digit c.
Proof.
  intros Hc. unfold char_isdecimal, in_ranges, ascii_digit.
  change decimal_ranges with ((48, 10) :: tl decimal_ranges).
  cbn [existsb fst snd].
  fold (in_ranges (tl decimal_ranges) c).
  rewrite (in_ranges_above 128) by (try (vm_compute; reflexivity); lia).
  rewrite orb_false_r. f_equal.
  destruct (Z.ltb_spec c (48 + 10)), (Z.leb_spec c 57); try reflexivity; lia.
Qed.

(** Below 128 the digits of [str.isdigit] are '0' to '9'. *)
Lemma char_isdigit_ascii c :
  0 <= c < 128 -> char_isdigit c = ascii_digit c.
Proof.
  intros Hc. unfold char_isdigit.
  rewrite char_isdecimal_ascii by lia.
  rewrite (in_ranges_above 128 other_digit_ranges)
    by (try (vm_compute; reflexivity); lia).
  apply orb_false_r.
Qed.

Lemma ascii_digit_isdigit c : ascii_digit c = true -> char_isdigit c = true.
Proof.
  intros H. rewrite char_isdigit_ascii; [assumption |].
  apply ascii_digit_spec in H. lia.
Qed.

Lemma forallb_Forall {A} (f : A -> bool) l :
  forallb f l = true <-> Forall (fun x => f x = true) l.
Proof.
  rewrite forallb_forall, Forall_forall. reflexivity.
Qed.

Lemma forallb_false_Exists {A} (f : A -> bool) l :
  forallb f l = false <-> Exists (fun x => f x = false) l.
Proof.
  induction l as [| x l IH]; cbn.
  - split; [discriminate | intros H; inversion H].
  - rewrite andb_false_iff, IH. split.
    + intros [H | H]; [left | right]; assumption.
    + intros H. inversion H; subst; [left | right]; assumption.
Qed.

Lemma len_nonneg s : 0 <= len s.
Proof. unfold len. lia. Qed.

Lemma isdigit_forallb s : len s = 10 -> isdigit s = forallb char_isdigit s.
Proof. destruct s; [discriminate | reflexivity]. Qed.

(** ** Phone *)

Lemma ten_digits_ascii s :
  Forall (fun c => 0 <= c < 128) s -> ten_ascii_digits s = ten_digits s.
Proof.
  intros Hs. unfold ten_ascii_digits, ten_digits. f_equal.
  induction Hs as [| c l Hc _ IH]; [reflexivity |].
  cbn [forallb]. rewrite IH, (char_isdigit_ascii c Hc). reflexivity.
Qed.

Lemma validate_phone_ok s :
  Phone.validate_phone s = Ok s <-> ten_digits s = true.
Proof.
  unfold Phone.validate_phone, ten_digits.
  destruct (len s =? 10) eqn:Hl; cbn.
  - apply Z.eqb_eq in Hl. rewrite (isdigit_forallb s Hl).
    destruct (forallb char_isdigit s); cbn; split; congruence.
  - split; discriminate.
Qed.

Lemma validate_phone_inv s v :
  Phone.validate_phone s = Ok v -> v = s /\ ten_digits s = true.
Proof.
  intros H. assert (v = s).
  { unfold Phone.validate_phone in H.
    destruct (negb (len s =? 10)); [discriminate |].
    destruct (negb (isdigit s)); [discriminate | congruence]. }
  subst. split; [reflexivity | apply validate_phone_ok; assumption].
Qed.

Lemma Phone_init_ok s p :
  Phone.init s = Ok p <-> p = {| Phone.value := s |} /\ ten_digits s = true.
Proof.
  unfold Phone.init. split.
  - destruct (Phone.validate_phone s) eqn:E; cbn; [| discriminate].
    apply validate_phone_inv in E. destruct E as [-> E]. intros [= <-]. auto.
  - intros [-> H]. apply validate_phone_ok in H. rewrite H. reflexivity.
Qed.

Lemma Phone_init_raise s e :
  Phone.init s = Raise e ->
  e = ValueError Phone.length_msg \/ e = ValueError Phone.digits_msg.
Proof.
  unfold Phone.init, Phone.validate_phone.
  destruct (negb (len s =? 10)); cbn; [intros [= <-]; auto |].
  destruct (negb (isdigit s)); cbn; [intros [= <-]; auto | discriminate].
Qed.

(** C1, as stated, fails: [Phone] accepts ten superscript twos, a string
    of ten characters none of which is an ASCII decimal digit (nor a
    decimal digit at all), where the claim promises the digits-related
    error. *)
Lemma C1_counterexample :
  Phone.init ten_superscript_twos = Ok {| Phone.value := ten_superscript_twos |}
  /\ ten_ascii_digits ten_superscript_twos = false
  /\ len ten_superscript_twos = 10
  /\ Exists (fun c => ascii_digit c = false /\ char_isdecimal c = false)
       ten_superscript_twos.
Proof.
  split; [vm_compute; reflexivity |].
  split; [vm_compute; reflexivity |].
  split; [vm_compute; reflexivity |].
  apply Exists_cons_hd. split; vm_compute; reflexivity.
Qed.

(** C1 (amended): [Phone(s)] succeeds if and only if [s] has exactly ten
    characters, each a digit in the sense of [str.isdigit]; for a string
    of ASCII characters that is: exactly ten ASCII decimal digits. On
    success the stored value is [s]. A string of another length fails
    with the length error whatever its characters (the length check comes
    first); a string of ten characters one of which is not such a digit
    fails with the digits error. *)
Theorem C1_phone_construction (s : str) :
  (is_ok (Phone.init s) = true <-> ten_digits s = true)
  /\ (Forall (fun c => 0 <= c < 128) s ->
      (is_ok (Phone.init s) = true <-> ten_ascii_digits s = true))
  /\ (ten_ascii_digits s = true -> Phone.init s = Ok {| Phone.value := s |})
  /\ (forall p, Phone.init s = Ok p -> Phone.value p = s)
  /\ (len s <> 10 -> Phone.init s = Raise (ValueError Phone.length_msg))
  /\ (len s = 10 -> Exists (fun c => char_isdigit c = false) s ->
      Phone.init s = Raise (ValueError Phone.digits_msg)).
Proof.
  assert (Hok : is_ok (Phone.init s) = true <-> ten_digits s = true).
  { split.
    - destruct (Phone.init s) as [p |] eqn:E; [| discriminate].
      intros _. apply Phone_init_ok in E. tauto.
    - intros H. rewrite (proj2 (Phone_init_ok s _) (conj eq_refl H)).
      reflexivity. }
  pose proof (ten_digits_ascii s) as Hascii.
  split; [exact Hok |]. split; [| split; [| split; [| split]]].
  - intros Hs. rewrite (Hascii Hs). exact Hok.
  - intros H. apply Phone_init_ok. split; [reflexivity |].
    unfold ten_ascii_digits in H. unfold ten_digits.
    apply andb_true_iff in H. destruct H as [Hl Hd]. rewrite Hl. cbn.
    apply forallb_Forall. apply forallb_Forall in Hd.
    eapply Forall_impl; [| exact Hd]. intros c. apply ascii_digit_isdigit.
  - intros p Hp. apply Phone_init_ok in Hp. destruct Hp as [-> _]. reflexivity.
  - intros Hl. unfold Phone.init, Phone.validate_phone.
    apply Z.eqb_neq in Hl. rewrite Hl. reflexivity.
  - intros Hl Hex. unfold Phone.init, Phone.validate_phone.
    rewrite (isdigit_forallb s Hl).
    apply forallb_false_Exists in Hex. rewrite Hex.
    apply Z.eqb_eq in Hl. rewrite Hl. reflexivity.
Qed.

(** ** Regular expressions *)

Lemma match_branch_spec b : forall s txt rest,
  match_branch b s = Some (txt, rest) <->
  s = txt ++ rest /\ branch_accepts b txt = true.
Proof.
  induction b as [| k b IH]; intros s txt rest; cbn.
  - split.
    + intros [= <- <-]. auto.
    + intros [-> H]. destruct txt; [reflexivity | discriminate].
  - destruct s as [| c s].
    + split; [discriminate |]. intros [H1 H2].
      destruct txt; [discriminate | discriminate].
    + destruct (class_matches k c) eqn:Hk.
      * destruct (match_branch b s) as [[t r] |] eqn:E.
        -- apply IH in E. destruct E as [-> Hb]. split.
           ++ intros [= <- <-]. cbn. rewrite Hk, Hb. auto.
           ++ intros [Hs Ht]. destruct txt as [| c' txt']; [discriminate |].
              cbn in Hs. injection Hs as <- Hs.
              apply andb_true_iff in Ht. destruct Ht as [_ Ht].
              assert (E : match_branch b (t ++ r) = Some (txt', rest))
                by (apply IH; auto).
              assert (E' : match_branch b (t ++ r) = Some (t, r))
                by (apply IH; auto).
              rewrite E in E'. injection E' as -> ->. reflexivity.
        -- split; [discriminate |]. intros [Hs Ht].
           destruct txt as [| c' txt']; [discriminate |].
           cbn in Hs. injection Hs as <- Hs.
           apply andb_true_iff in Ht. destruct Ht as [_ Ht].
           assert (E' : match_branch b s = Some (txt', rest))
             by (apply IH; auto).
           rewrite E in E'. discriminate.
      * split; [discriminate |]. intros [Hs Ht].
        destruct txt as [| c' txt']; [discriminate |].
        cbn in Hs. injection Hs as <- Hs. rewrite Hk in Ht. discriminate.
Qed.

Lemma first_branch_sound {R} bs s (k : str -> str -> option R) r :
  first_branch bs s k = Some r ->
  exists b txt rest,
    In b bs /\ branch_accepts b txt = true /\ s = txt ++ rest
    /\ k txt rest = Some r.
Proof.
  induction bs as [| b bs IH]; cbn; [discriminate |].
  assert (Hrec : first_branch bs s k = Some r ->
    exists b0 txt rest, (b = b0 \/ In b0 bs) /\ branch_accepts b0 txt = true
      /\ s = txt ++ rest /\ k txt rest = Some r).
  { intros H. destruct (IH H) as (b0 & txt & rest & Hin & Hx).
    exists b0, txt, rest. auto. }
  destruct (match_branch b s) as [[txt rest] |] eqn:E; [| exact Hrec].
  destruct (k txt rest) as [r' |] eqn:Ek; [| exact Hrec].
  intros [= <-]. apply match_branch_spec in E. destruct E as [-> Hb].
  exists b, txt, rest. auto.
Qed.

Lemma first_branch_complete {R} bs s (k : str -> str -> option R) :
  forall b txt rest r,
    In b bs -> branch_accepts b txt = true -> s = txt ++ rest ->
    k txt rest = Some r ->
    exists r', first_branch bs s k = Some r'.
Proof.
  induction bs as [| b0 bs IH]; intros b txt rest r Hin Hb Hs Hk;
    [destruct Hin |].
  cbn. destruct (match_branch b0 s) as [[t0 r0] |] eqn:E.
  - destruct (k t0 r0) as [r' |] eqn:Ek; [eauto |].
    destruct Hin as [-> | Hin]; [| eauto].
    assert (E' : match_branch b s = Some (txt, rest))
      by (apply match_branch_spec; auto).
    rewrite E in E'. injection E' as -> ->.
    rewrite Hk in Ek. discriminate.
  - destruct Hin as [-> | Hin]; [| eauto].
    assert (E' : match_branch b s = Some (txt, rest))
      by (apply match_branch_spec; auto).
    rewrite E in E'. discriminate.
Qed.

Lemma match_sound p : forall s groups rest,
  match_ p s = Some (groups, rest) -> matches p s groups rest.
Proof.
  induction p as [| it p IH]; intros s groups rest; cbn.
  - intros [= <- <-]. constructor.
  - destruct it as [name bs | x].
    + intros H. apply first_branch_sound in H.
      destruct H as (b & txt & r & Hin & Hb & -> & Hk).
      destruct (match_ p r) as [[g r'] |] eqn:E; [| discriminate].
      injection Hk as <- <-. econstructor; eauto.
    + destruct s as [| c s]; [discriminate |].
      destruct (Z.eqb_spec c x) as [-> | _]; [| discriminate].
      intros H. constructor. auto.
Qed.

Lemma match_complete p s groups rest :
  matches p s groups rest -> exists groups' rest', match_ p s = Some (groups', rest').
Proof.
  induction 1 as [s | x p s groups rest _ IH
                 | name bs b txt p s groups rest Hin Hb _ IH]; cbn.
  - eauto.
  - rewrite Z.eqb_refl. exact IH.
  - destruct IH as (g' & r' & E).
    destruct (first_branch_complete bs (txt ++ s)
      (fun txt0 rest0 =>
         match match_ p rest0 with
         | Some (groups0, rest'0) => Some ((name, txt0) :: groups0, rest'0)
         | None => None
         end) b txt s ((name, txt) :: g', r') Hin Hb eq_refl) as [[g2 r2] E2].
    + rewrite E. reflexivity.
    + eauto.
Qed.

(** ** The pattern of "%d.%m.%Y" *)

Lemma accepts_spec bs txt :
  accepts bs txt = true <-> exists b, In b bs /\ branch_accepts b txt = true.
Proof. unfold accepts. apply existsb_exists. Qed.

Lemma branch_accepts_length b : forall txt,
  branch_accepts b txt = true -> List.length txt = List.length b.
Proof.
  induction b as [| k b IH]; intros [| c txt]; cbn; try discriminate; auto.
  intros H. apply andb_true_iff in H. destruct H as [_ H].
  rewrite (IH _ H). reflexivity.
Qed.

Lemma branch_accepts_excludes x b : forall txt,
  forallb (fun k => negb (class_matches k x)) b = true ->
  branch_accepts b txt = true -> ~ In x txt.
Proof.
  induction b as [| k b IH]; intros [| c txt]; cbn; try discriminate; auto.
  intros Hb H. apply andb_true_iff in Hb. apply andb_true_iff in H.
  destruct Hb as [Hk Hb], H as [Hc H]. intros [-> | Hin].
  - rewrite Hc in Hk. discriminate.
  - exact (IH _ Hb H Hin).
Qed.

Lemma accepts_excludes x bs txt :
  forallb (forallb (fun k => negb (class_matches k x))) bs = true ->
  accepts bs txt = true -> ~ In x txt.
Proof.
  intros Hbs H. apply accepts_spec in H. destruct H as (b & Hin & Hb).
  rewrite forallb_forall in Hbs.
  exact (branch_accepts_excludes x b txt (Hbs b Hin) Hb).
Qed.

(** No day and no month holds a full stop. *)
Lemma day_no_stop d : accepts day_branches d = true -> ~ In 46 d.
Proof. apply accepts_excludes. vm_compute. reflexivity. Qed.

Lemma month_no_stop m : accepts month_branches m = true -> ~ In 46 m.
Proof. apply accepts_excludes. vm_compute. reflexivity. Qed.

Lemma year_length y : accepts year_branches y = true -> List.length y = 4%nat.
Proof.
  intros H. apply accepts_spec in H. destruct H as (b & [<- | []] & Hb).
  apply branch_accepts_length in Hb. exact Hb.
Qed.

Lemma split_at_unique (x : char) (a : str) : forall a' t t',
  ~ In x a -> ~ In x a' -> a ++ x :: t = a' ++ x :: t' -> a = a' /\ t = t'.
Proof.
  induction a as [| c a IH]; intros [| c' a'] t t' Ha Ha' E; cbn in E.
  - injection E as ->. auto.
  - injection E as <- _. exfalso. apply Ha'. left. reflexivity.
  - injection E as -> _. exfalso. apply Ha. left. reflexivity.
  - injection E as <- E.
    destruct (IH a' t t') as [-> ->]; auto.
    + intros H. apply Ha. right. exact H.
    + intros H. apply Ha'. right. exact H.
Qed.

Lemma app_same_length_inv {A} (a : list A) : forall a' t t',
  List.length a = List.length a' -> a ++ t = a' ++ t' -> a = a' /\ t = t'.
Proof.
  induction a as [| c a IH]; intros [| c' a'] t t' Hl E; cbn in *;
    try discriminate; auto.
  injection E as <- E. injection Hl as Hl.
  destruct (IH a' t t' Hl E) as [-> ->]. auto.
Qed.

Lemma matches_format_inv s groups rest :
  matches format_regex s groups rest ->
  exists d m y, dmY_shape s d m y rest /\ groups = dmY_groups d m y.
Proof.
  unfold format_regex, regex_d, regex_m, regex_Y. intros H.
  inversion H as [| | n1 bs1 b1 d p1 s1 g1 r1 Hin1 Hb1 H1]; subst; clear H.
  inversion H1 as [| x2 p2 s2 g2 r2 H2 |]; subst; clear H1.
  inversion H2 as [| | n3 bs3 b3 m p3 s3 g3 r3 Hin3 Hb3 H3]; subst; clear H2.
  inversion H3 as [| x4 p4 s4 g4 r4 H4 |]; subst; clear H3.
  inversion H4 as [| | n5 bs5 b5 y p5 s5 g5 r5 Hin5 Hb5 H5]; subst; clear H4.
  inversion H5; subst; clear H5.
  exists d, m, y. split; [| reflexivity].
  repeat split; try (apply accepts_spec; eauto).
Qed.

Lemma matches_format_intro s d m y rest :
  dmY_shape s d m y rest -> matches format_regex s (dmY_groups d m y) rest.
Proof.
  intros (-> & Hd & Hm & Hy).
  apply accepts_spec in Hd, Hm, Hy.
  destruct Hd as (bd & Hind & Hbd), Hm as (bm & Hinm & Hbm),
    Hy as (by_ & Hiny & Hby).
  unfold format_regex, dmY_groups.
  eapply matches_group; [exact Hind | exact Hbd |].
  apply matches_literal.
  eapply matches_group; [exact Hinm | exact Hbm |].
  apply matches_literal.
  eapply matches_group; [exact Hiny | exact Hby |].
  apply matches_nil.
Qed.

Lemma dmY_shape_unique s d m y rest d' m' y' rest' :
  dmY_shape s d m y rest -> dmY_shape s d' m' y' rest' ->
  d = d' /\ m = m' /\ y = y' /\ rest = rest'.
Proof.
  intros (-> & Hd & Hm & Hy) (E & Hd' & Hm' & Hy').
  apply split_at_unique in E; auto using day_no_stop.
  destruct E as [<- E].
  apply split_at_unique in E; auto using month_no_stop.
  destruct E as [<- E].
  apply app_same_length_inv in E.
  - destruct E as [<- <-]. auto.
  - rewrite (year_length _ Hy), (year_length _ Hy'). reflexivity.
Qed.

(** The match object of [format_regex.match(s)]: the only way to read [s]
    as day.month.year, when there is one. *)
Lemma match_format_spec s groups rest :
  match_ format_regex s = Some (groups, rest) <->
  exists d m y, dmY_shape s d m y rest /\ groups = dmY_groups d m y.
Proof.
  split.
  - intros H. apply matches_format_inv. apply match_sound. exact H.
  - intros (d & m & y & Hs & ->).
    destruct (match_complete _ _ _ _ (matches_format_intro _ _ _ _ _ Hs))
      as (g' & r' & E).
    rewrite E. apply match_sound in E. apply matches_format_inv in E.
    destruct E as (d' & m' & y' & Hs' & ->).
    destruct (dmY_shape_unique _ _ _ _ _ _ _ _ _ Hs Hs') as (-> & -> & -> & ->).
    reflexivity.
Qed.

Lemma match_format_none s :
  match_ format_regex s = None <-> forall d m y rest, ~ dmY_shape s d m y rest.
Proof.
  split.
  - intros H d m y rest Hs.
    assert (E : match_ format_regex s = Some (dmY_groups d m y, rest))
      by (apply match_format_spec; eauto).
    rewrite H in E. discriminate.
  - intros H. destruct (match_ format_regex s) as [[g r] |] eqn:E;
      [| reflexivity].
    apply match_format_spec in E. destruct E as (d & m & y & Hs & _).
    destruct (H d m y r Hs).
Qed.

(** ** strptime *)

Lemma strptime_dmY_spec s dt :
  strptime_dmY s = Ok dt <-> reads_as s dt.
Proof.
  unfold strptime_dmY, reads_as. split.
  - destruct (match_ format_regex s) as [[g r] |] eqn:E; [| discriminate].
    apply match_format_spec in E. destruct E as (d & m & y & Hs & ->).
    destruct r as [| c r]; [| discriminate]. cbn.
    destruct (int d) as [day |] eqn:Ed; [| discriminate]. cbn.
    destruct (int m) as [month |] eqn:Em; [| discriminate]. cbn.
    destruct (int y) as [year |] eqn:Ey; [| discriminate]. cbn.
    intros H. exists d, m, y, day, month, year. auto.
  - intros (d & m & y & day & month & year & Hs & Ed & Em & Ey & Hnew).
    assert (E : match_ format_regex s = Some (dmY_groups d m y, []))
      by (apply match_format_spec; eauto).
    rewrite E. cbn. rewrite Ed. cbn. rewrite Em. cbn. rewrite Ey. cbn.
    exact Hnew.
Qed.

(** ** int *)

Lemma decimal_value_some c :
  char_isdecimal c = true -> exists v, decimal_value c = Some v /\ 0 <= v <= 9.
Proof.
  unfold char_isdecimal, in_ranges, decimal_value. intros H.
  destruct (find _ decimal_ranges) as [r |] eqn:E.
  - exists ((c - fst r) mod 10). split; [reflexivity |].
    pose proof (Z.mod_pos_bound (c - fst r) 10). lia.
  - apply existsb_exists in H. destruct H as (r & Hin & Hr).
    rewrite (find_none _ _ E r Hin) in Hr. discriminate.
Qed.

Lemma decimal_value_ascii c :
  ascii_digit c = true -> decimal_value c = Some (c - 48).
Proof.
  intros H. apply ascii_digit_spec in H.
  unfold decimal_value.
  change decimal_ranges with ((48, 10) :: tl decimal_ranges).
  cbn [find fst snd].
  replace ((48 <=? c) && (c <? 48 + 10)) with true
    by (symmetry; apply andb_true_iff; split; [apply Z.leb_le | apply Z.ltb_lt]; lia).
  cbn [fst]. rewrite Z.mod_small by lia. reflexivity.
Qed.

Lemma ascii_digit_isdecimal c : ascii_digit c = true -> char_isdecimal c = true.
Proof.
  intros H. rewrite char_isdecimal_ascii; [exact H |].
  apply ascii_digit_spec in H. lia.
Qed.

(** A decimal digit is no whitespace, no sign and no underscore. *)
Lemma decimal_facts c :
  char_isdecimal c = true ->
  int_space c = false /\ (c =? 43) = false /\ (c =? 45) = false
  /\ (c =? 95) = false.
Proof.
  intros H.
  assert (Hs : in_ranges int_special_ranges c = false).
  { apply (ranges_disjoint_spec decimal_ranges); [| exact H].
    vm_compute. reflexivity. }
  unfold int_special_ranges, in_ranges in Hs. rewrite existsb_app in Hs.
  apply orb_false_iff in Hs. destruct Hs as [Hsp Hs].
  cbn [existsb fst snd] in Hs. rewrite !orb_false_iff in Hs.
  destruct Hs as (H43 & H45 & H95 & _).
  split; [exact Hsp |].
  split; [| split]; apply Z.eqb_neq; intros ->; discriminate.
Qed.

Lemma lstrip_decimal txt :
  Forall (fun c => char_isdecimal c = true) txt -> lstrip txt = txt.
Proof.
  intros [| c l Hc _]; [reflexivity |]. cbn [lstrip].
  destruct (decimal_facts c Hc) as (-> & _). reflexivity.
Qed.

Lemma strip_decimal txt :
  Forall (fun c => char_isdecimal c = true) txt -> strip txt = txt.
Proof.
  intros H. unfold strip. rewrite (lstrip_decimal txt H).
  rewrite (lstrip_decimal (rev txt)) by (apply Forall_rev; exact H).
  apply rev_involutive.
Qed.

Lemma int_digits_decimal txt : forall acc after,
  Forall (fun c => char_isdecimal c = true) txt ->
  (txt <> [] \/ after = true) ->
  int_digits txt acc after
  = Some (fold_left
            (fun a c => a * 10 + match decimal_value c with Some v => v | None => 0 end)
            txt acc).
Proof.
  induction txt as [| c txt IH]; intros acc after Hd Hne;
    cbn [int_digits fold_left].
  - destruct Hne as [Hne | ->]; [destruct (Hne eq_refl) | reflexivity].
  - inversion Hd as [| c' l' Hc Hd']; subst.
    destruct (decimal_facts c Hc) as (_ & _ & _ & ->).
    destruct (decimal_value_some c Hc) as (v & -> & _).
    apply IH; auto.
Qed.

(** [int] on a text of decimal digits. *)
Lemma int_decimal txt :
  Forall (fun c => char_isdecimal c = true) txt -> txt <> [] ->
  int txt = Ok (number txt).
Proof.
  intros Hd Hne. unfold int. rewrite (strip_decimal txt Hd).
  destruct txt as [| c txt]; [destruct (Hne eq_refl) |].
  inversion Hd as [| c' l' Hc Hd']; subst.
  destruct (decimal_facts c Hc) as (_ & -> & -> & _).
  rewrite (int_digits_decimal (c :: txt) 0 false Hd) by (left; discriminate).
  reflexivity.
Qed.

Lemma digit_class_decimal k c :
  digit_class k = true -> class_matches k c = true -> char_isdecimal c = true.
Proof.
  destruct k as [x | lo hi |]; cbn; intros Hk Hc.
  - apply Z.eqb_eq in Hc. subst. apply ascii_digit_isdecimal. exact Hk.
  - apply ascii_digit_isdecimal. apply ascii_digit_spec.
    apply andb_true_iff in Hk. destruct Hk as [Hlo Hhi].
    apply ascii_digit_spec in Hlo, Hhi. bool_to_Z. lia.
  - exact Hc.
Qed.

Lemma digit_branch_decimal b : forall txt,
  forallb digit_class b = true -> branch_accepts b txt = true ->
  Forall (fun c => char_isdecimal c = true) txt.
Proof.
  induction b as [| k b IH]; intros [| c txt]; cbn; try discriminate; auto.
  intros Hb H. apply andb_true_iff in Hb. apply andb_true_iff in H.
  destruct Hb as [Hk Hb], H as [Hc H]. constructor.
  - exact (digit_class_decimal k c Hk Hc).
  - exact (IH txt Hb H).
Qed.

Lemma int_digit_branch b txt :
  b <> [] -> forallb digit_class b = true -> branch_accepts b txt = true ->
  int txt = Ok (number txt).
Proof.
  intros Hne Hb H. apply int_decimal.
  - exact (digit_branch_decimal b txt Hb H).
  - intros ->. destruct b; [destruct (Hne eq_refl) | discriminate].
Qed.

(** The branch [ [1-9]] of the day: [int] strips the space. *)
Lemma int_space_digit_branch txt :
  branch_accepts [Chr 32; Rng 49 57] txt = true -> int txt = Ok (number txt).
Proof.
  intros H. pose proof (branch_accepts_length _ _ H) as Hlen.
  destruct txt as [| a [| c [| x txt]]]; try discriminate Hlen.
  cbn [branch_accepts class_matches] in H. rewrite andb_true_r in H.
  apply andb_true_iff in H. destruct H as [Ha Hc].
  apply Z.eqb_eq in Ha. subst a.
  assert (Hd : ascii_digit c = true) by (apply ascii_digit_spec; bool_to_Z; lia).
  pose proof (ascii_digit_isdecimal c Hd) as Hdec.
  destruct (decimal_facts c Hdec) as (Hsp & H43 & H45 & H95).
  unfold int.
  match goal with
  | |- context [strip ?l] => assert (Estrip : strip l = c :: nil)
  end.
  { unfold strip. cbn [lstrip]. change (int_space 32) with true. cbn iota.
    rewrite Hsp. cbn [rev app lstrip]. rewrite Hsp. reflexivity. }
  rewrite Estrip, H43, H45.
  unfold number. cbn [int_digits fold_left]. rewrite H95.
  change (decimal_value 32) with (@None Z).
  rewrite (decimal_value_ascii c Hd). reflexivity.
Qed.

(** [int] cannot fail on the text of a group of the pattern. *)
Lemma int_group txt :
  accepts day_branches txt = true \/ accepts month_branches txt = true
  \/ accepts year_branches txt = true ->
  int txt = Ok (number txt).
Proof.
  intros H.
  assert (Hb : exists b, In b (day_branches ++ month_branches ++ year_branches)
                         /\ branch_accepts b txt = true).
  { destruct H as [H | [H | H]]; apply accepts_spec in H;
      destruct H as (b & Hin & Hb); exists b; split; auto;
      rewrite !in_app_iff; auto. }
  destruct Hb as (b & Hin & Hb). cbn in Hin.
  repeat (destruct Hin as [<- | Hin];
          [first [ apply int_space_digit_branch; exact Hb
                 | eapply int_digit_branch;
                   [| | exact Hb]; [discriminate | reflexivity] ] |]).
  destruct Hin.
Qed.

(** ** Dates *)

Lemma date_new_ok y m d dt :
  date.new y m d = Ok dt <->
  dt = {| date.year := y; date.month := m; date.day := d |}
  /\ 1 <= y <= 9999 /\ 1 <= m <= 12 /\ 1 <= d <= date.days_in_month y m.
Proof.
  unfold date.new, date.MINYEAR, date.MAXYEAR.
  destruct ((1 <=? y) && (y <=? 9999)) eqn:Hy; cbn [negb].
  2: { split; [discriminate |]. intros (_ & H & _). bool_to_Z. lia. }
  destruct ((1 <=? m) && (m <=? 12)) eqn:Hm; cbn [negb].
  2: { split; [discriminate |]. intros (_ & _ & H & _). bool_to_Z. lia. }
  destruct ((1 <=? d) && (d <=? date.days_in_month y m)) eqn:Hd; cbn [negb].
  2: { split; [discriminate |]. intros (_ & _ & _ & H). bool_to_Z. lia. }
  bool_to_Z. split.
  - intros [= <-]. repeat split; lia.
  - intros (-> & _). reflexivity.
Qed.

Lemma date_new_raise y m d e :
  date.new y m d = Raise e -> is_ValueError e = true.
Proof.
  unfold date.new.
  repeat match goal with
         | |- context [if ?b then _ else _] => destruct b
         end; intros [= <-]; reflexivity.
Qed.

Lemma date_new_valid y m d dt : date.new y m d = Ok dt -> date.valid dt.
Proof.
  intros H. apply date_new_ok in H. destruct H as (-> & H).
  unfold date.valid, date.MINYEAR, date.MAXYEAR. cbn. exact H.
Qed.

Lemma month_cases m :
  1 <= m <= 12 ->
  m = 1 \/ m = 2 \/ m = 3 \/ m = 4 \/ m = 5 \/ m = 6 \/ m = 7 \/ m = 8
  \/ m = 9 \/ m = 10 \/ m = 11 \/ m = 12.
Proof. lia. Qed.

Ltac each_month H :=
  apply month_cases in H;
  repeat (destruct H as [H | H]; [subst |]); [.. | subst].

Lemma days_in_month_bounds y m :
  1 <= m <= 12 -> 28 <= date.days_in_month y m <= 31.
Proof.
  intros H. unfold date.days_in_month.
  each_month H; destruct (date.is_leap y); cbn; lia.
Qed.

(** ** Birthday *)

Lemma number_2 a b :
  ascii_digit a = true -> ascii_digit b = true ->
  number [a; b] = 10 * digit_of a + digit_of b.
Proof.
  intros Ha Hb. unfold number, digit_of. cbn [fold_left].
  rewrite (decimal_value_ascii a Ha), (decimal_value_ascii b Hb). lia.
Qed.

Lemma number_4 a b c d :
  ascii_digit a = true -> ascii_digit b = true ->
  ascii_digit c = true -> ascii_digit d = true ->
  number [a; b; c; d]
  = 1000 * digit_of a + 100 * digit_of b + 10 * digit_of c + digit_of d.
Proof.
  intros Ha Hb Hc Hd. unfold number, digit_of. cbn [fold_left].
  rewrite (decimal_value_ascii a Ha), (decimal_value_ascii b Hb),
    (decimal_value_ascii c Hc), (decimal_value_ascii d Hd). lia.
Qed.

Lemma accepts_day_2 a b :
  ascii_digit a = true -> ascii_digit b = true ->
  1 <= 10 * digit_of a + digit_of b <= 31 ->
  accepts day_branches [a; b] = true.
Proof.
  intros Ha Hb H. pose proof (ascii_digit_isdecimal b Hb) as Hdec.
  apply ascii_digit_spec in Ha, Hb. unfold digit_of in H.
  unfold accepts, day_branches, regex_d, group_branches.
  cbn [existsb branch_accepts class_matches]. rewrite Hdec.
  rewrite ?andb_true_r, ?andb_false_r, ?orb_false_r.
  bool_to_Z. lia.
Qed.

Lemma accepts_month_2 a b :
  ascii_digit a = true -> ascii_digit b = true ->
  1 <= 10 * digit_of a + digit_of b <= 12 ->
  accepts month_branches [a; b] = true.
Proof.
  intros Ha Hb H.
  apply ascii_digit_spec in Ha, Hb. unfold digit_of in H.
  unfold accepts, month_branches, regex_m, group_branches.
  cbn [existsb branch_accepts class_matches].
  rewrite ?andb_true_r, ?andb_false_r, ?orb_false_r.
  bool_to_Z. lia.
Qed.

Lemma accepts_year_4 a b c d :
  ascii_digit a = true -> ascii_digit b = true ->
  ascii_digit c = true -> ascii_digit d = true ->
  accepts year_branches [a; b; c; d] = true.
Proof.
  intros Ha Hb Hc Hd.
  unfold accepts, year_branches, regex_Y, group_branches.
  cbn [existsb branch_accepts class_matches].
  rewrite (ascii_digit_isdecimal a Ha), (ascii_digit_isdecimal b Hb),
    (ascii_digit_isdecimal c Hc), (ascii_digit_isdecimal d Hd).
  reflexivity.
Qed.

(** [strptime] succeeds exactly on the texts day.month.year whose
    numbers name a date. *)
Lemma strptime_dmY_numbers s dt :
  strptime_dmY s = Ok dt <->
  exists d m y,
    dmY_shape s d m y []
    /\ date.new (number y) (number m) (number d) = Ok dt.
Proof.
  rewrite strptime_dmY_spec. unfold reads_as. split.
  - intros (d & m & y & day & month & year & Hs & Ed & Em & Ey & Hnew).
    destruct Hs as (Hs & Hd & Hm & Hy).
    rewrite (int_group d) in Ed by auto.
    rewrite (int_group m) in Em by auto.
    rewrite (int_group y) in Ey by auto.
    injection Ed as <-. injection Em as <-. injection Ey as <-.
    exists d, m, y. split; [repeat split; assumption | exact Hnew].
  - intros (d & m & y & Hs & Hnew).
    exists d, m, y, (number d), (number m), (number y).
    destruct Hs as (Hs & Hd & Hm & Hy).
    repeat split; try assumption; apply int_group; auto.
Qed.

Lemma strptime_dmY_raise s e :
  strptime_dmY s = Raise e -> is_ValueError e = true.
Proof.
  unfold strptime_dmY.
  destruct (match_ format_regex s) as [[g r] |] eqn:E;
    [| intros [= <-]; reflexivity].
  destruct (negb (len r =? 0)) eqn:Hr; [intros [= <-]; reflexivity |].
  apply match_format_spec in E. destruct E as (d & m & y & Hs & ->).
  destruct Hs as (Hs & Hd & Hm & Hy). cbn.
  rewrite (int_group d), (int_group m), (int_group y) by auto. cbn.
  apply date_new_raise.
Qed.

Lemma strict_strptime s dt :
  strict_DDMMYYYY s = Some dt -> strptime_dmY s = Ok dt.
Proof.
  unfold strict_DDMMYYYY.
  destruct s as [| d1 [| d2 [| p [| m1 [| m2 [| q [| y1 [| y2 [| y3 [| y4 [| x s]]]]]]]]]]];
    try discriminate.
  destruct (forallb ascii_digit [d1; d2; m1; m2; y1; y2; y3; y4]
            && (p =? 46) && (q =? 46)) eqn:H; [| discriminate].
  apply andb_true_iff in H. destruct H as [H Hq].
  apply andb_true_iff in H. destruct H as [H Hp].
  apply Z.eqb_eq in Hp, Hq. subst p q. cbn [forallb] in H.
  repeat (apply andb_true_iff in H; let Hx := fresh "Hx" in destruct H as [Hx H]).
  destruct (date.new _ _ _) as [dt' |] eqn:Hnew; [| discriminate].
  intros [= ->]. apply strptime_dmY_numbers.
  pose proof Hnew as Hv. apply date_new_ok in Hv.
  destruct Hv as (_ & _ & Hm & Hd).
  pose proof (days_in_month_bounds
    (1000 * digit_of y1 + 100 * digit_of y2 + 10 * digit_of y3 + digit_of y4)
    _ Hm) as Hdim.
  exists [d1; d2], [m1; m2], [y1; y2; y3; y4]. split.
  - repeat split.
    + apply accepts_day_2; auto. lia.
    + apply accepts_month_2; auto.
    + apply accepts_year_4; auto.
  - rewrite number_2, number_2, number_4 by assumption. exact Hnew.
Qed.

Lemma Birthday_init_ok s b :
  Birthday.init s = Ok b <-> strptime_dmY s = Ok (Birthday.value b).
Proof.
  unfold Birthday.init, Birthday.validate_birthday.
  destruct (strptime_dmY s) as [dt | e]; cbn.
  - split.
    + intros [= <-]. reflexivity.
    + intros [= ->]. destruct b. reflexivity.
  - split; [destruct e; discriminate | discriminate].
Qed.

Lemma Birthday_init_raise s e :
  Birthday.init s = Raise e -> e = ValueError Birthday.format_msg.
Proof.
  unfold Birthday.init, Birthday.validate_birthday.
  destruct (strptime_dmY s) as [dt | e'] eqn:E; cbn; [discriminate |].
  apply strptime_dmY_raise in E.
  destruct e'; try discriminate E. cbn. intros [= <-]. reflexivity.
Qed.

(** C2, as stated, fails: "1.1.1990", with a day and a month of one
    digit, is not of the strict form and [Birthday] accepts it. *)
Lemma C2_counterexample :
  Birthday.init (lit "1.1.1990")
  = Ok {| Birthday.value :=
            {| date.year := 1990; date.month := 1; date.day := 1 |} |}
  /\ strict_DDMMYYYY (lit "1.1.1990") = None.
Proof. split; vm_compute; reflexivity. Qed.

(** C2 (amended): [Birthday(raw)] succeeds if and only if [raw] is
    day.month.year, where the day matches 3[0-1]|[1-2]\d|0[1-9]|[1-9]| [1-9],
    the month 1[0-2]|0[1-9]|[1-9] and the year \d\d\d\d (one or two
    digits for day and month, a space in place of the leading zero of
    the day, [\d] any Unicode decimal digit), nothing before or after,
    and the three numbers name a date of the calendar with a year from
    1 to 9999; the stored value is that date, always a valid one. Every
    text of the strict form DD.MM.YYYY naming such a date is accepted.
    Every failure is a ValueError whose message names DD.MM.YYYY. *)
Theorem C2_birthday_construction (s : str) :
  (forall b, Birthday.init s = Ok b <->
     exists d m y,
       dmY_shape s d m y []
       /\ date.new (number y) (number m) (number d) = Ok (Birthday.value b))
  /\ (forall dt, strict_DDMMYYYY s = Some dt ->
        Birthday.init s = Ok {| Birthday.value := dt |})
  /\ (forall b, Birthday.init s = Ok b -> date.valid (Birthday.value b))
  /\ (forall e, Birthday.init s = Raise e ->
        e = ValueError Birthday.format_msg).
Proof.
  split; [| split; [| split]].
  - intros b. rewrite Birthday_init_ok. apply strptime_dmY_numbers.
  - intros dt H. apply Birthday_init_ok. cbn. apply strict_strptime. exact H.
  - intros b H. apply Birthday_init_ok, strptime_dmY_numbers in H.
    destruct H as (d & m & y & _ & H). exact (date_new_valid _ _ _ _ H).
  - apply Birthday_init_raise.
Qed.

(** ** strftime *)

Lemma decimal_aux_digit fuel d acc :
  0 <= d <= 9 -> date.decimal_aux (S fuel) d acc = (48 + d) :: acc.
Proof.
  intros H. cbn [date.decimal_aux].
  rewrite Z.mod_small, Z.div_small by lia. reflexivity.
Qed.

Lemma decimal_aux_step fuel n d acc :
  0 < n -> 0 <= d <= 9 ->
  date.decimal_aux (S fuel) (10 * n + d) acc
  = date.decimal_aux fuel n ((48 + d) :: acc).
Proof.
  intros Hn Hd. cbn [date.decimal_aux].
  assert (Hq : (10 * n + d) / 10 = n)
    by (symmetry; apply (Z.div_unique _ 10 n d); lia).
  assert (Hr : (10 * n + d) mod 10 = d)
    by (symmetry; apply (Z.mod_unique _ 10 n d); lia).
  rewrite Hq, Hr. destruct (Z.eqb_spec n 0); [lia | reflexivity].
Qed.

(** The fuel of [decimal] on a number of at least [2^k]. *)
Lemma decimal_fuel n k :
  0 <= k -> 2 ^ k <= n ->
  exists f, S (Z.to_nat (Z.log2 n)) = (S (Z.to_nat k) + f)%nat.
Proof.
  intros Hk Hn.
  assert (Hpos : 0 < n) by (pose proof (Z.pow_pos_nonneg 2 k); lia).
  assert (Hlog : k <= Z.log2 n) by (apply Z.log2_le_pow2; assumption).
  exists (Z.to_nat (Z.log2 n) - Z.to_nat k)%nat. lia.
Qed.

Lemma decimal_1 d : 0 <= d <= 9 -> date.decimal d = [48 + d].
Proof. intros H. unfold date.decimal. apply decimal_aux_digit. exact H. Qed.

Lemma decimal_2 a b :
  1 <= a <= 9 -> 0 <= b <= 9 -> date.decimal (10 * a + b) = [48 + a; 48 + b].
Proof.
  intros Ha Hb. unfold date.decimal.
  destruct (decimal_fuel (10 * a + b) 3) as [f ->]; [lia | change (2 ^ 3) with 8; lia |].
  change (S (Z.to_nat 3) + f)%nat with (S (S (2 + f))).
  rewrite decimal_aux_step by lia. apply decimal_aux_digit. lia.
Qed.

Lemma decimal_3 a b c :
  1 <= a <= 9 -> 0 <= b <= 9 -> 0 <= c <= 9 ->
  date.decimal (10 * (10 * a + b) + c) = [48 + a; 48 + b; 48 + c].
Proof.
  intros Ha Hb Hc. unfold date.decimal.
  destruct (decimal_fuel (10 * (10 * a + b) + c) 6) as [f ->];
    [lia | change (2 ^ 6) with 64; lia |].
  change (S (Z.to_nat 6) + f)%nat with (S (S (S (4 + f)))).
  rewrite !decimal_aux_step by lia. apply decimal_aux_digit. lia.
Qed.

Lemma decimal_4 a b c d :
  1 <= a <= 9 -> 0 <= b <= 9 -> 0 <= c <= 9 -> 0 <= d <= 9 ->
  date.decimal (10 * (10 * (10 * a + b) + c) + d)
  = [48 + a; 48 + b; 48 + c; 48 + d].
Proof.
  intros Ha Hb Hc Hd. unfold date.decimal.
  destruct (decimal_fuel (10 * (10 * (10 * a + b) + c) + d) 9) as [f ->];
    [lia | change (2 ^ 9) with 512; lia |].
  change (S (Z.to_nat 9) + f)%nat with (S (S (S (S (6 + f))))).
  rewrite !decimal_aux_step by lia. apply decimal_aux_digit. lia.
Qed.

(** Two digits, zero-filled: [%d] and [%m]. *)
Lemma zfill_2_decimal a b :
  ascii_digit a = true -> ascii_digit b = true ->
  date.zfill 2 (date.decimal (10 * digit_of a + digit_of b)) = [a; b].
Proof.
  intros Ha Hb. apply ascii_digit_spec in Ha, Hb. unfold digit_of.
  destruct (Z.eq_dec a 48) as [-> | Hne].
  - replace (10 * (48 - 48) + (b - 48)) with (b - 48) by lia.
    rewrite decimal_1 by lia. unfold date.zfill.
    cbn [List.length Nat.sub repeat app]. f_equal. f_equal. lia.
  - rewrite decimal_2 by lia. unfold date.zfill.
    cbn [List.length Nat.sub repeat app]. f_equal; [| f_equal]; lia.
Qed.

(** Four digits of a year from 1000 on: [%Y], filled or not. *)
Lemma decimal_year a b c d :
  ascii_digit a = true -> ascii_digit b = true ->
  ascii_digit c = true -> ascii_digit d = true ->
  1000 <= 1000 * digit_of a + 100 * digit_of b + 10 * digit_of c + digit_of d ->
  date.decimal
    (1000 * digit_of a + 100 * digit_of b + 10 * digit_of c + digit_of d)
  = [a; b; c; d].
Proof.
  intros Ha Hb Hc Hd. apply ascii_digit_spec in Ha, Hb, Hc, Hd.
  unfold digit_of. intros Hy.
  replace (1000 * (a - 48) + 100 * (b - 48) + 10 * (c - 48) + (d - 48))
    with (10 * (10 * (10 * (a - 48) + (b - 48)) + (c - 48)) + (d - 48)) by lia.
  rewrite decimal_4 by lia.
  f_equal; [| f_equal; [| f_equal; [| f_equal]]]; lia.
Qed.

(** Four digits of any year, zero-filled. *)
Lemma zfill_4_decimal a b c d :
  ascii_digit a = true -> ascii_digit b = true ->
  ascii_digit c = true -> ascii_digit d = true ->
  date.zfill 4
    (date.decimal
       (1000 * digit_of a + 100 * digit_of b + 10 * digit_of c + digit_of d))
  = [a; b; c; d].
Proof.
  intros Ha Hb Hc Hd.
  destruct (Z_le_gt_dec 1000
    (1000 * digit_of a + 100 * digit_of b + 10 * digit_of c + digit_of d))
    as [Hy | Hy].
  { rewrite decimal_year by assumption. reflexivity. }
  unfold date.zfill.
  apply ascii_digit_spec in Ha, Hb, Hc, Hd. unfold digit_of in *.
  assert (a = 48) by lia. subst a.
  destruct (Z.eq_dec b 48) as [-> | Hb0].
  - destruct (Z.eq_dec c 48) as [-> | Hc0].
    + replace (1000 * (48 - 48) + 100 * (48 - 48) + 10 * (48 - 48) + (d - 48))
        with (d - 48) by lia.
      rewrite decimal_1 by lia.
      cbn [List.length Nat.sub repeat app]. do 4 f_equal. lia.
    + replace (1000 * (48 - 48) + 100 * (48 - 48) + 10 * (c - 48) + (d - 48))
        with (10 * (c - 48) + (d - 48)) by lia.
      rewrite decimal_2 by lia.
      cbn [List.length Nat.sub repeat app]. do 2 f_equal.
      f_equal; [| f_equal]; lia.
  - replace (1000 * (48 - 48) + 100 * (b - 48) + 10 * (c - 48) + (d - 48))
      with (10 * (10 * (b - 48) + (c - 48)) + (d - 48)) by lia.
    rewrite decimal_3 by lia.
    cbn [List.length Nat.sub repeat app]. f_equal.
    f_equal; [| f_equal; [| f_equal]]; lia.
Qed.

Lemma strict_inv s dt :
  strict_DDMMYYYY s = Some dt ->
  exists d1 d2 m1 m2 y1 y2 y3 y4,
    s = [d1; d2; 46; m1; m2; 46; y1; y2; y3; y4]
    /\ Forall (fun c => ascii_digit c = true) [d1; d2; m1; m2; y1; y2; y3; y4]
    /\ date.new
         (1000 * digit_of y1 + 100 * digit_of y2 + 10 * digit_of y3 + digit_of y4)
         (10 * digit_of m1 + digit_of m2)
         (10 * digit_of d1 + digit_of d2) = Ok dt.
Proof.
  unfold strict_DDMMYYYY.
  destruct s as [| d1 [| d2 [| p [| m1 [| m2 [| q [| y1 [| y2 [| y3 [| y4 [| x s]]]]]]]]]]];
    try discriminate.
  destruct (forallb ascii_digit [d1; d2; m1; m2; y1; y2; y3; y4]
            && (p =? 46) && (q =? 46)) eqn:H; [| discriminate].
  apply andb_true_iff in H. destruct H as [H Hq].
  apply andb_true_iff in H. destruct H as [H Hp].
  apply Z.eqb_eq in Hp, Hq. subst p q. apply forallb_Forall in H.
  destruct (date.new _ _ _) as [dt' |] eqn:Hnew; [| discriminate].
  intros [= ->]. exists d1, d2, m1, m2, y1, y2, y3, y4. auto.
Qed.

(** C8, as stated, fails where [%Y] is not zero-filled (CPython up to
    3.12 on glibc): "01.01.0999" is of the strict form, parses to
    1 January 999, and is formatted back as "01.01.999". *)
Lemma C8_counterexample :
  strict_DDMMYYYY year_0999
  = Some {| date.year := 999; date.month := 1; date.day := 1 |}
  /\ Birthday.init year_0999
     = Ok {| Birthday.value :=
               {| date.year := 999; date.month := 1; date.day := 1 |} |}
  /\ date.strftime_dmY date.YearPlain
       {| date.year := 999; date.month := 1; date.day := 1 |}
     = lit "01.01.999"
  /\ str_eqb (lit "01.01.999") year_0999 = false.
Proof. repeat split; vm_compute; reflexivity. Qed.

(** C8 (amended): for every text [s] of the strict form DD.MM.YYYY
    (zero-padded day and month of two ASCII digits, a year of four)
    naming a date of the calendar, whose year is 1000 or later, or
    whatever the year where [%Y] is zero-filled, [Birthday(s)] succeeds
    and formatting the stored date as "%d.%m.%Y" gives [s] back. *)
Theorem C8_birthday_roundtrip (style : date.year_style) (s : str) (dt : date.t) :
  strict_DDMMYYYY s = Some dt ->
  style = date.YearZeroFilled \/ 1000 <= date.year dt ->
  Birthday.init s = Ok {| Birthday.value := dt |}
  /\ date.strftime_dmY style dt = s.
Proof.
  intros Hs Hstyle. split.
  { apply Birthday_init_ok. cbn. apply strict_strptime. exact Hs. }
  apply strict_inv in Hs.
  destruct Hs as (d1 & d2 & m1 & m2 & y1 & y2 & y3 & y4 & -> & Hd & Hnew).
  apply date_new_ok in Hnew. destruct Hnew as (-> & _).
  repeat match goal with
         | H : Forall _ (_ :: _) |- _ =>
             let Hx := fresh "Hx" in
             let Hl := fresh "Hl" in
             inversion H as [| ? ? Hx Hl]; subst; clear H
         end.
  unfold date.strftime_dmY. cbn [date.year date.month date.day] in *.
  rewrite !zfill_2_decimal by assumption.
  assert (HY : date.format_Y style
                 (1000 * digit_of y1 + 100 * digit_of y2
                  + 10 * digit_of y3 + digit_of y4) = [y1; y2; y3; y4]).
  { destruct Hstyle as [-> | Hy].
    - apply zfill_4_decimal; assumption.
    - destruct style; cbn [date.format_Y].
      + apply decimal_year; assumption.
      + apply zfill_4_decimal; assumption. }
  rewrite HY. reflexivity.
Qed.

Lemma C8_birthday_roundtrip_witness :
  Birthday.init (lit "25.12.1990")
  = Ok {| Birthday.value :=
            {| date.year := 1990; date.month := 12; date.day := 25 |} |}
  /\ date.strftime_dmY date.YearPlain
       {| date.year := 1990; date.month := 12; date.day := 25 |}
     = lit "25.12.1990".
Proof.
  apply (C8_birthday_roundtrip date.YearPlain (lit "25.12.1990")
           {| date.year := 1990; date.month := 12; date.day := 25 |}).
  - vm_compute. reflexivity.
  - right. cbn. lia.
Defined.

(** ** Ordinals of dates *)

Lemma days_before_year_succ y :
  date.days_before_year (y + 1) = date.days_before_year y + days_in_year y.
Proof.
  unfold date.days_before_year, days_in_year, date.is_leap.
  replace (y + 1 - 1) with y by lia.
  destruct ((y mod 4 =? 0) && (negb (y mod 100 =? 0) || (y mod 400 =? 0))) eqn:E;
    Z.div_mod_to_equations; lia.
Qed.

Lemma days_before_year_mono y1 y2 :
  y1 <= y2 -> date.days_before_year y1 <= date.days_before_year y2.
Proof.
  intros H. unfold date.days_before_year. Z.div_mod_to_equations. lia.
Qed.

Lemma days_before_month_succ y m :
  1 <= m < 12 ->
  date.days_before_month y (m + 1)
  = date.days_before_month y m + date.days_in_month y m.
Proof.
  intros H. assert (Hm : 1 <= m <= 12) by lia.
  unfold date.days_before_month, date.days_in_month.
  each_month Hm; try lia; destruct (date.is_leap y); reflexivity.
Qed.

Lemma days_before_month_mono y m1 m2 :
  1 <= m1 -> m1 <= m2 -> m2 <= 12 ->
  date.days_before_month y m1 <= date.days_before_month y m2.
Proof.
  intros H1 H12 H2.
  assert (Hm1 : 1 <= m1 <= 12) by lia. assert (Hm2 : 1 <= m2 <= 12) by lia.
  unfold date.days_before_month.
  each_month Hm1; each_month Hm2; try lia;
    destruct (date.is_leap y); cbn; lia.
Qed.

Lemma days_before_month_end y m :
  1 <= m <= 12 ->
  date.days_before_month y m + date.days_in_month y m <= days_in_year y.
Proof.
  intros Hm. unfold date.days_before_month, date.days_in_month, days_in_year.
  each_month Hm; destruct (date.is_leap y); cbn; lia.
Qed.

Lemma days_before_month_nonneg y m :
  1 <= m <= 12 -> 0 <= date.days_before_month y m.
Proof.
  intros Hm. unfold date.days_before_month.
  each_month Hm; destruct (date.is_leap y); cbn; lia.
Qed.

(** A date is a day of its year. *)
Lemma toordinal_in_year d :
  date.valid d ->
  date.days_before_year (date.year d) < date.toordinal d
  <= date.days_before_year (date.year d + 1).
Proof.
  intros (_ & Hm & Hd). unfold date.toordinal, date.ymd2ord.
  rewrite days_before_year_succ.
  pose proof (days_before_month_end (date.year d) _ Hm).
  pose proof (days_before_month_nonneg (date.year d) _ Hm). lia.
Qed.

(** The comparison of dates is the comparison of their ordinals. *)
Lemma toordinal_lt a b :
  date.valid a -> date.valid b ->
  date.lt a b = true -> date.toordinal a < date.toordinal b.
Proof.
  intros Ha Hb H. unfold date.lt in H.
  apply orb_true_iff in H. destruct H as [Hy | H].
  - apply Z.ltb_lt in Hy.
    pose proof (toordinal_in_year a Ha). pose proof (toordinal_in_year b Hb).
    pose proof (days_before_year_mono (date.year a + 1) (date.year b)). lia.
  - apply andb_true_iff in H. destruct H as [Hy H]. apply Z.eqb_eq in Hy.
    destruct Ha as (_ & Hma & Hda), Hb as (_ & Hmb & Hdb).
    unfold date.toordinal, date.ymd2ord. rewrite Hy in *.
    apply orb_true_iff in H. destruct H as [Hm | H].
    + apply Z.ltb_lt in Hm.
      pose proof (days_before_month_succ (date.year b) (date.month a)).
      pose proof (days_before_month_mono (date.year b)
                    (date.month a + 1) (date.month b)).
      lia.
    + apply andb_true_iff in H. destruct H as [Hm Hd].
      apply Z.eqb_eq in Hm. apply Z.ltb_lt in Hd. rewrite Hm. lia.
Qed.

Lemma date_lt_false a b :
  date.lt a b = false -> a = b \/ date.lt b a = true.
Proof.
  unfold date.lt. intros H.
  destruct a as [ya ma da], b as [yb mb db]. cbn in *.
  destruct (Z.ltb_spec ya yb); [discriminate |].
  destruct (Z.ltb_spec yb ya); [right; reflexivity |].
  assert (ya = yb) by lia. subst yb. rewrite Z.eqb_refl in *. cbn in *.
  destruct (Z.ltb_spec ma mb); [discriminate |].
  destruct (Z.ltb_spec mb ma); [right; reflexivity |].
  assert (ma = mb) by lia. subst mb. rewrite Z.eqb_refl in *. cbn in *.
  destruct (Z.ltb_spec da db); [discriminate |].
  destruct (Z.ltb_spec db da); [right; reflexivity |].
  left. f_equal. lia.
Qed.

Lemma toordinal_le a b :
  date.valid a -> date.valid b ->
  date.lt a b = false -> date.toordinal b <= date.toordinal a.
Proof.
  intros Ha Hb H. destruct (date_lt_false a b H) as [-> | Hlt]; [lia |].
  pose proof (toordinal_lt b a Hb Ha Hlt). lia.
Qed.

Lemma replace_year_ok d y d' :
  date.replace_year d y = Ok d' ->
  d' = {| date.year := y; date.month := date.month d; date.day := date.day d |}
  /\ date.valid d'.
Proof.
  unfold date.replace_year. intros H. split.
  - apply date_new_ok in H. tauto.
  - exact (date_new_valid _ _ _ _ H).
Qed.

(** ** Record.days_to_birthday *)

(** C3, as stated, fails: for a birthday of 29 February and today
    1 March 2024, the stored month and day with today's year give a
    valid date (29 February 2024), which lies before today; advancing it
    to 2025 raises, and no integer is returned. *)
Lemma C3_counterexample :
  date.valid first_of_march_2024
  /\ Birthday.init (lit "29.02.2000") = Ok {| Birthday.value := leap_day_2000 |}
  /\ is_ok (date.replace_year leap_day_2000 (date.year first_of_march_2024))
     = true
  /\ Record.days_to_birthday first_of_march_2024 leap_day_record
     = Raise (ValueError "day is out of range for month").
Proof.
  split; [| split; [| split]]; try (vm_compute; reflexivity).
  unfold date.valid. vm_compute. intuition discriminate.
Qed.

(** C3 (amended): [days_to_birthday] returns null when no birthday is
    set. With a birthday set, when the stored month and day with today's
    year give a valid date (the candidate) and, in case the candidate
    lies strictly before today, also with the next year, it returns a
    non-negative integer: the day count from today to the candidate when
    the candidate is not before today (0 when it is today), and to the
    date of the next year otherwise. *)
Theorem C3_days_to_birthday (today : date.t) (r : Record.t) :
  date.valid today ->
  (Record.birthday r = None -> Record.days_to_birthday today r = Ok None)
  /\ (forall b candidate,
        Record.birthday r = Some b ->
        date.replace_year (Birthday.value b) (date.year today) = Ok candidate ->
        (date.lt candidate today = false ->
           Record.days_to_birthday today r
           = Ok (Some (date.sub_days candidate today))
           /\ 0 <= date.sub_days candidate today
           /\ (date.month candidate = date.month today ->
               date.day candidate = date.day today ->
               date.sub_days candidate today = 0))
        /\ (forall next,
              date.lt candidate today = true ->
              date.replace_year candidate (date.year today + 1) = Ok next ->
              Record.days_to_birthday today r
              = Ok (Some (date.sub_days next today))
              /\ 0 < date.sub_days next today)).
Proof.
  intros Htoday. split.
  - intros H. unfold Record.days_to_birthday. rewrite H. reflexivity.
  - intros b candidate Hb Hc. unfold Record.days_to_birthday.
    rewrite Hb, Hc. cbn [bind_result].
    destruct (replace_year_ok _ _ _ Hc) as [Ec Hvalid]. split.
    + intros Hlt. rewrite Hlt. cbn [bind_result].
      split; [reflexivity |]. split.
      * pose proof (toordinal_le candidate today Hvalid Htoday Hlt).
        unfold date.sub_days. lia.
      * intros Hm Hd. unfold date.sub_days.
        replace candidate with today; [lia |].
        subst candidate. destruct today; cbn in *. subst. reflexivity.
    + intros next Hlt Hn. rewrite Hlt, Hn. cbn [bind_result].
      split; [reflexivity |].
      destruct (replace_year_ok _ _ _ Hn) as [En Hnvalid].
      assert (Hy : date.year next = date.year today + 1)
        by (rewrite En; reflexivity).
      pose proof (toordinal_in_year today Htoday) as Ht.
      pose proof (toordinal_in_year next Hnvalid) as Hnx.
      rewrite Hy in Hnx. unfold date.sub_days. lia.
Qed.

Lemma some_today_valid : date.valid some_today.
Proof. unfold date.valid. vm_compute. intuition discriminate. Qed.

Lemma C3_days_to_birthday_witness :
  Record.days_to_birthday some_today john_record = Ok (Some 5).
Proof.
  destruct (C3_days_to_birthday some_today john_record some_today_valid)
    as [_ H].
  destruct (H {| Birthday.value := john_birthday |}
              {| date.year := 2024; date.month := 12; date.day := 25 |}
              eq_refl eq_refl) as [H1 _].
  destruct (H1 eq_refl) as [E _]. exact E.
Defined.

Lemma days_to_birthday_nonneg today r n :
  date.valid today ->
  Record.days_to_birthday today r = Ok (Some n) -> 0 <= n.
Proof.
  intros Htoday. unfold Record.days_to_birthday.
  destruct (Record.birthday r) as [b |]; [| discriminate].
  destruct (date.replace_year (Birthday.value b) (date.year today))
    as [candidate |] eqn:Hc; [| discriminate].
  cbn [bind_result].
  destruct (replace_year_ok _ _ _ Hc) as [Ec Hvalid].
  destruct (date.lt candidate today) eqn:Hlt.
  - destruct (date.replace_year candidate (date.year today + 1))
      as [next |] eqn:Hn; [| discriminate].
    cbn [bind_result]. intros [= <-].
    destruct (replace_year_ok _ _ _ Hn) as [En Hnvalid].
    assert (Hy : date.year next = date.year today + 1)
      by (rewrite En; reflexivity).
    pose proof (toordinal_in_year today Htoday) as Ht.
    pose proof (toordinal_in_year next Hnvalid) as Hnx.
    rewrite Hy in Hnx. unfold date.sub_days. lia.
  - cbn [bind_result]. intros [= <-].
    pose proof (toordinal_le candidate today Hvalid Htoday Hlt).
    unfold date.sub_days. lia.
Qed.

Lemma days_to_birthday_none today r :
  Record.days_to_birthday today r = Ok None <-> Record.birthday r = None.
Proof.
  unfold Record.days_to_birthday. split.
  - destruct (Record.birthday r) as [b |]; [| reflexivity].
    destruct (date.replace_year _ _) as [c |]; [| discriminate].
    cbn [bind_result].
    destruct (if date.lt c today then _ else _); discriminate.
  - intros ->. reflexivity.
Qed.

Lemma days_to_birthday_raise today r e :
  Record.days_to_birthday today r = Raise e -> is_ValueError e = true.
Proof.
  unfold Record.days_to_birthday.
  destruct (Record.birthday r) as [b |]; [| discriminate].
  destruct (date.replace_year (Birthday.value b) (date.year today))
    as [c |] eqn:Hc.
  - cbn [bind_result]. destruct (date.lt c today).
    + destruct (date.replace_year c (date.year today + 1)) as [n |] eqn:Hn;
        [discriminate |].
      cbn [bind_result]. intros [= <-]. exact (date_new_raise _ _ _ _ Hn).
    + discriminate.
  - cbn [bind_result]. intros [= <-]. exact (date_new_raise _ _ _ _ Hc).
Qed.

(** ** AddressBook.get_upcoming_birthdays *)

Lemma upcoming_loop_ok today days records : forall acc,
  Forall (fun r => is_ok (Record.days_to_birthday today r) = true) records ->
  AddressBook.upcoming_loop today days records acc
  = Ok (acc ++ filter (is_upcoming today days) records).
Proof.
  induction records as [| r records IH]; intros acc Hall;
    cbn [AddressBook.upcoming_loop filter].
  - rewrite app_nil_r. reflexivity.
  - inversion Hall as [| r' l' Hr Hrest]; subst. unfold is_upcoming.
    destruct (Record.birthday r) as [b |] eqn:Hb; [| apply IH; exact Hrest].
    destruct (Record.days_to_birthday today r) as [[n |] | e];
      [| apply IH; exact Hrest | discriminate].
    cbn [bind_result]. destruct (n <=? days).
    + rewrite (IH _ Hrest), <- app_assoc. reflexivity.
    + apply IH. exact Hrest.
Qed.

Lemma upcoming_loop_raise today days records : forall acc,
  Exists (fun r => is_ok (Record.days_to_birthday today r) = false) records ->
  exists msg,
    AddressBook.upcoming_loop today days records acc = Raise (ValueError msg).
Proof.
  induction records as [| r records IH]; intros acc Hex;
    [inversion Hex |].
  cbn [AddressBook.upcoming_loop].
  destruct (Record.days_to_birthday today r) as [o | e] eqn:Hd.
  - assert (Hrest : Exists
      (fun r => is_ok (Record.days_to_birthday today r) = false) records).
    { inversion Hex as [? ? H | ? ? H]; subst; [| exact H].
      rewrite Hd in H. discriminate. }
    destruct (Record.birthday r); [| apply IH; exact Hrest].
    cbn [bind_result]. destruct o as [n |]; [| apply IH; exact Hrest].
    destruct (n <=? days); apply IH; exact Hrest.
  - pose proof (days_to_birthday_raise _ _ _ Hd) as He.
    destruct e as [msg | |]; try discriminate He.
    destruct (Record.birthday r) eqn:Hb.
    + cbn [bind_result]. eauto.
    + apply (proj2 (days_to_birthday_none today r)) in Hb.
      rewrite Hb in Hd. discriminate.
Qed.

Lemma is_upcoming_spec today days r :
  is_upcoming today days r = true <->
  exists b n, Record.birthday r = Some b
              /\ Record.days_to_birthday today r = Ok (Some n) /\ n <= days.
Proof.
  unfold is_upcoming. split.
  - destruct (Record.birthday r) as [b |]; [| discriminate].
    destruct (Record.days_to_birthday today r) as [[n |] | e];
      try discriminate.
    intros H. apply Z.leb_le in H. eauto.
  - intros (b & n & -> & -> & H). apply Z.leb_le. exact H.
Qed.

(** C4, as stated, fails: on a directory holding a birthday of
    29 February, in a year that is not a leap year, the call raises
    instead of returning a sequence, also for a negative window. *)
Lemma C4_counterexample :
  date.valid new_year_2023
  /\ AddressBook.get_upcoming_birthdays new_year_2023 (-1) leap_day_book
     = Raise (ValueError "day is out of range for month")
  /\ AddressBook.get_upcoming_birthdays new_year_2023 7 leap_day_book
     = Raise (ValueError "day is out of range for month").
Proof.
  split; [| split]; try (vm_compute; reflexivity).
  unfold date.valid. vm_compute. intuition discriminate.
Qed.

(** C4 (amended): for every directory in which [days_to_birthday]
    raises for no record today, and every integer [days],
    [get_upcoming_birthdays(days)] returns exactly the records that have
    a birthday and whose [days_to_birthday] value is at most [days]
    (the boundary included), in the order of the directory; for a
    negative [days] that is the empty list. *)
Theorem C4_upcoming_birthdays (today : date.t) (days : Z) (data : AddressBook.t) :
  date.valid today ->
  Forall (fun r => is_ok (Record.days_to_birthday today r) = true)
    (dict_values data) ->
  AddressBook.get_upcoming_birthdays today days data
  = Ok (filter (is_upcoming today days) (dict_values data))
  /\ (forall r, is_upcoming today days r = true <->
        exists b n, Record.birthday r = Some b
          /\ Record.days_to_birthday today r = Ok (Some n) /\ n <= days)
  /\ (days < 0 -> AddressBook.get_upcoming_birthdays today days data = Ok []).
Proof.
  intros Htoday Hall.
  assert (E : AddressBook.get_upcoming_birthdays today days data
              = Ok (filter (is_upcoming today days) (dict_values data))).
  { unfold AddressBook.get_upcoming_birthdays.
    rewrite (upcoming_loop_ok _ _ _ [] Hall). reflexivity. }
  split; [exact E |]. split; [intros r; apply is_upcoming_spec |].
  intros Hneg. rewrite E. f_equal.
  clear E Hall. induction (dict_values data) as [| r l IH]; [reflexivity |].
  cbn [filter]. destruct (is_upcoming today days r) eqn:Hr; [| exact IH].
  apply is_upcoming_spec in Hr. destruct Hr as (b & n & _ & Hn & Hle).
  pose proof (days_to_birthday_nonneg _ _ _ Htoday Hn). lia.
Qed.

Lemma C4_upcoming_birthdays_witness :
  AddressBook.get_upcoming_birthdays some_today 7 demo_book = Ok [john_record]
  /\ AddressBook.get_upcoming_birthdays some_today 12 demo_book
     = Ok [john_record; jane_record].
Proof.
  split.
  - destruct (C4_upcoming_birthdays some_today 7 demo_book some_today_valid)
      as [E _]; [| exact E].
    repeat (constructor; [vm_compute; reflexivity |]). constructor.
  - destruct (C4_upcoming_birthdays some_today 12 demo_book some_today_valid)
      as [E _]; [| exact E].
    repeat (constructor; [vm_compute; reflexivity |]). constructor.
Defined.

(** ** Strings and lists *)

Lemma str_eqb_eq a : forall b, str_eqb a b = true <-> a = b.
Proof.
  induction a as [| x a IH]; intros [| y b]; cbn; split; try discriminate;
    try reflexivity.
  - intros H. apply andb_true_iff in H. destruct H as [Hx H].
    apply Z.eqb_eq in Hx. apply IH in H. subst. reflexivity.
  - intros [= -> ->]. rewrite Z.eqb_refl. apply IH. reflexivity.
Qed.

Lemma str_eqb_refl a : str_eqb a a = true.
Proof. apply str_eqb_eq. reflexivity. Qed.

Lemma str_eqb_neq a b : str_eqb a b = false <-> a <> b.
Proof.
  split.
  - intros H E. apply str_eqb_eq in E. rewrite E in H. discriminate.
  - intros H. destruct (str_eqb a b) eqn:E; [| reflexivity].
    apply str_eqb_eq in E. contradiction.
Qed.

Lemma list_index_found {A} (eqb : A -> A -> bool) x l1 y l2 :
  (forall z, In z l1 -> eqb z x = false) -> eqb y x = true ->
  list_index eqb x (l1 ++ y :: l2) = Ok (List.length l1).
Proof.
  intros Hl1 Hy. induction l1 as [| z l1 IH]; cbn.
  - rewrite Hy. reflexivity.
  - rewrite (Hl1 z) by (left; reflexivity).
    rewrite IH by (intros w Hw; apply Hl1; right; exact Hw). reflexivity.
Qed.

Lemma list_remove_found {A} (eqb : A -> A -> bool) x l1 y l2 :
  (forall z, In z l1 -> eqb z x = false) -> eqb y x = true ->
  list_remove eqb x (l1 ++ y :: l2) = Ok (l1 ++ l2).
Proof.
  intros Hl1 Hy. induction l1 as [| z l1 IH]; cbn.
  - rewrite Hy. reflexivity.
  - rewrite (Hl1 z) by (left; reflexivity).
    rewrite IH by (intros w Hw; apply Hl1; right; exact Hw). reflexivity.
Qed.

Lemma list_setitem_at {A} (l1 : list A) y l2 v :
  list_setitem (l1 ++ y :: l2) (List.length l1) v = Ok (l1 ++ v :: l2).
Proof.
  induction l1 as [| z l1 IH]; cbn; [reflexivity |].
  rewrite IH. reflexivity.
Qed.

(** What [find] finds: the first item that satisfies the test, and the
    items before it, which do not. *)
Lemma find_split {A} (f : A -> bool) l x :
  find f l = Some x ->
  exists l1 l2, l = l1 ++ x :: l2 /\ f x = true
                /\ (forall z, In z l1 -> f z = false).
Proof.
  induction l as [| y l IH]; cbn; [discriminate |].
  destruct (f y) eqn:Hy.
  - intros [= <-]. exists [], l. repeat split; auto. intros z [].
  - intros H. destruct (IH H) as (l1 & l2 & -> & Hx & Hl1).
    exists (y :: l1), l2. repeat split; auto.
    intros z [<- | Hz]; auto.
Qed.

Lemma find_first {A} (f : A -> bool) l1 x l2 :
  f x = true -> (forall z, In z l1 -> f z = false) ->
  find f (l1 ++ x :: l2) = Some x.
Proof.
  intros Hx Hl1. induction l1 as [| y l1 IH]; cbn.
  - rewrite Hx. reflexivity.
  - rewrite (Hl1 y) by (left; reflexivity).
    apply IH. intros z Hz. apply Hl1. right. exact Hz.
Qed.

Lemma find_absent {A} (f : A -> bool) l :
  (forall z, In z l -> f z = false) -> find f l = None.
Proof.
  intros H. induction l as [| y l IH]; cbn; [reflexivity |].
  rewrite (H y) by (left; reflexivity).
  apply IH. intros z Hz. apply H. right. exact Hz.
Qed.

(** ** Record *)

Lemma find_phone_ok r v p :
  Record.find_phone v r = Ok p <->
  exists l1 l2, first_phone_at r l1 p l2 v.
Proof.
  unfold Record.find_phone, first_phone_at. split.
  - destruct (find _ (Record.phones r)) as [q |] eqn:E; [| discriminate].
    intros [= ->]. apply find_split in E.
    destruct E as (l1 & l2 & E & Hp & Hl1). exists l1, l2.
    split; [exact E |]. split; [apply str_eqb_eq; exact Hp |].
    intros z Hz. apply str_eqb_neq. apply Hl1. exact Hz.
  - intros (l1 & l2 & E & Hp & Hl1). rewrite E.
    rewrite (find_first _ l1 p l2); [reflexivity | |].
    + apply str_eqb_eq. exact Hp.
    + intros z Hz. apply str_eqb_neq. apply Hl1. exact Hz.
Qed.

Lemma find_phone_raise r v e :
  Record.find_phone v r = Raise e <->
  e = ValueError Record.not_found_msg /\ no_phone r v.
Proof.
  unfold Record.find_phone, no_phone. split.
  - destruct (find _ (Record.phones r)) as [q |] eqn:E; [discriminate |].
    intros [= <-]. split; [reflexivity |].
    intros z Hz. apply str_eqb_neq. exact (find_none _ _ E z Hz).
  - intros [-> H]. rewrite find_absent; [reflexivity |].
    intros z Hz. apply str_eqb_neq. apply H. exact Hz.
Qed.

Lemma phone_is_first r l1 p l2 v :
  first_phone_at r l1 p l2 v ->
  (forall z, In z l1 -> Record.phone_is z p = false)
  /\ Record.phone_is p p = true.
Proof.
  intros (_ & Hp & Hl1). unfold Record.phone_is. split.
  - intros z Hz. apply str_eqb_neq. rewrite Hp. apply Hl1. exact Hz.
  - apply str_eqb_refl.
Qed.

(** [edit_phone], case by case. *)
Lemma edit_phone_run old new r :
  Record.edit_phone old new r =
  match Record.find_phone old r with
  | Raise e => (Raise e, r)
  | Ok p =>
      match Phone.init new with
      | Raise e => (Raise e, r)
      | Ok q =>
          match list_index Record.phone_is p (Record.phones r) with
          | Raise e => (Raise e, r)
          | Ok i =>
              match list_setitem (Record.phones r) i q with
              | Raise e => (Raise e, r)
              | Ok l => (Ok tt, Record.set_phones r l)
              end
          end
      end
  end.
Proof.
  unfold Record.edit_phone, bind, reads, pure, update.
  destruct (Record.find_phone old r); [| reflexivity].
  destruct (Phone.init new); [| reflexivity].
  destruct (list_index Record.phone_is a (Record.phones r)); [| reflexivity].
  cbn [bind_result].
  destruct (list_setitem (Record.phones r) a1 a0); reflexivity.
Qed.

Lemma edit_phone_ok old new r l1 p l2 q :
  first_phone_at r l1 p l2 old -> Phone.init new = Ok q ->
  Record.edit_phone old new r = (Ok tt, Record.set_phones r (l1 ++ q :: l2)).
Proof.
  intros Hfirst Hq. rewrite edit_phone_run.
  rewrite (proj2 (find_phone_ok r old p)) by eauto. rewrite Hq.
  destruct (phone_is_first _ _ _ _ _ Hfirst) as [Hl1 Hp].
  destruct Hfirst as (E & _). rewrite E.
  rewrite (list_index_found _ p l1 p l2 Hl1 Hp).
  rewrite list_setitem_at. reflexivity.
Qed.

Lemma remove_phone_run v r :
  Record.remove_phone v r =
  match Record.find_phone v r with
  | Raise e => (Raise e, r)
  | Ok p =>
      match list_remove Record.phone_is p (Record.phones r) with
      | Raise e => (Raise e, r)
      | Ok l => (Ok tt, Record.set_phones r l)
      end
  end.
Proof.
  unfold Record.remove_phone, bind, reads, update.
  destruct (Record.find_phone v r); [| reflexivity].
  destruct (list_remove Record.phone_is a (Record.phones r)); reflexivity.
Qed.

Lemma remove_phone_ok v r l1 p l2 :
  first_phone_at r l1 p l2 v ->
  Record.remove_phone v r = (Ok tt, Record.set_phones r (l1 ++ l2)).
Proof.
  intros Hfirst. rewrite remove_phone_run.
  rewrite (proj2 (find_phone_ok r v p)) by eauto.
  destruct (phone_is_first _ _ _ _ _ Hfirst) as [Hl1 Hp].
  destruct Hfirst as (E & _). rewrite E.
  rewrite (list_remove_found _ p l1 p l2 Hl1 Hp). reflexivity.
Qed.

Lemma add_phone_run v r :
  Record.add_phone v r =
  match Phone.init v with
  | Raise e => (Raise e, r)
  | Ok q => (Ok tt, Record.set_phones r (Record.phones r ++ [q]))
  end.
Proof.
  unfold Record.add_phone, bind, pure, modify.
  destruct (Phone.init v); reflexivity.
Qed.

Lemma add_birthday_run v r :
  Record.add_birthday v r =
  match Birthday.init v with
  | Raise e => (Raise e, r)
  | Ok b => (Ok tt, Record.set_birthday r (Some b))
  end.
Proof.
  unfold Record.add_birthday, bind, pure, modify.
  destruct (Birthday.init v); reflexivity.
Qed.

(** Either the searched phone is the first of its value somewhere in the
    list, or no phone has that value. *)
Lemma phone_found_or_not r v :
  (exists l1 p l2, first_phone_at r l1 p l2 v) \/ no_phone r v.
Proof.
  destruct (Record.find_phone v r) as [p | e] eqn:E.
  - left. apply find_phone_ok in E. destruct E as (l1 & l2 & H). eauto.
  - right. apply find_phone_raise in E. tauto.
Qed.

(** C5: a call of [add_phone], [add_birthday] or [edit_phone] that
    raises leaves the record as it was: the new value is validated, and
    for [edit_phone] the old one looked up, before anything is assigned.
    An invalid phone makes [add_phone] raise, an invalid birthday
    [add_birthday], an absent old phone or an invalid new one
    [edit_phone]. *)
Theorem C5_failed_call_leaves_record (r : Record.t) :
  (forall phone e r',
     Record.add_phone phone r = (Raise e, r') -> r' = r)
  /\ (forall birthday e r',
        Record.add_birthday birthday r = (Raise e, r') -> r' = r)
  /\ (forall old new e r',
        Record.edit_phone old new r = (Raise e, r') -> r' = r)
  /\ (forall phone e,
        Phone.init phone = Raise e -> Record.add_phone phone r = (Raise e, r))
  /\ (forall birthday e,
        Birthday.init birthday = Raise e ->
        Record.add_birthday birthday r = (Raise e, r))
  /\ (forall old new e,
        Record.find_phone old r = Raise e ->
        Record.edit_phone old new r = (Raise e, r))
  /\ (forall old new p e,
        Record.find_phone old r = Ok p -> Phone.init new = Raise e ->
        Record.edit_phone old new r = (Raise e, r)).
Proof.
  split; [| split; [| split; [| split; [| split; [| split]]]]].
  - intros phone e r'. rewrite add_phone_run.
    destruct (Phone.init phone); [discriminate |]. intros [= _ <-]. reflexivity.
  - intros birthday e r'. rewrite add_birthday_run.
    destruct (Birthday.init birthday); [discriminate |].
    intros [= _ <-]. reflexivity.
  - intros old new e r'. rewrite edit_phone_run.
    destruct (Record.find_phone old r); [| intros [= _ <-]; reflexivity].
    destruct (Phone.init new); [| intros [= _ <-]; reflexivity].
    destruct (list_index _ _ _); [| intros [= _ <-]; reflexivity].
    destruct (list_setitem _ _ _); [discriminate |].
    intros [= _ <-]. reflexivity.
  - intros phone e H. rewrite add_phone_run, H. reflexivity.
  - intros birthday e H. rewrite add_birthday_run, H. reflexivity.
  - intros old new e H. rewrite edit_phone_run, H. reflexivity.
  - intros old new p e H1 H2. rewrite edit_phone_run, H1, H2. reflexivity.
Qed.

(** C6: when the first phone of value [old] stands after the phones
    [l1] and before the phones [l2], and [new] is a valid phone number,
    [edit_phone(old, new)] puts the new phone at that very position and
    leaves [l1] before it and [l2] after it, as they were; when no phone
    has the value [old] it fails with the not-found error, whatever
    [new] is. *)
Theorem C6_edit_phone_in_place (r : Record.t) (old new : str) :
  (forall l1 p l2,
     first_phone_at r l1 p l2 old -> ten_digits new = true ->
     Record.edit_phone old new r
     = (Ok tt,
        {| Record.name := Record.name r;
           Record.phones := l1 ++ {| Phone.value := new |} :: l2;
           Record.birthday := Record.birthday r |})
     /\ Record.phones (snd (Record.edit_phone old new r))
        = l1 ++ {| Phone.value := new |} :: l2
     /\ nth_error (Record.phones (snd (Record.edit_phone old new r)))
          (List.length l1) = Some {| Phone.value := new |})
  /\ (no_phone r old ->
      Record.edit_phone old new r
      = (Raise (ValueError Record.not_found_msg), r)).
Proof.
  split.
  - intros l1 p l2 Hfirst Hnew.
    assert (E : Record.edit_phone old new r
                = (Ok tt,
                   {| Record.name := Record.name r;
                      Record.phones := l1 ++ {| Phone.value := new |} :: l2;
                      Record.birthday := Record.birthday r |})).
    { apply (edit_phone_ok old new r l1 p l2); [exact Hfirst |].
      apply Phone_init_ok. auto. }
    rewrite E. cbn [snd Record.phones]. split; [reflexivity |].
    split; [reflexivity |].
    rewrite nth_error_app2 by lia. rewrite Nat.sub_diag. reflexivity.
  - intros Habsent. rewrite edit_phone_run.
    rewrite (proj2 (find_phone_raise r old _) (conj eq_refl Habsent)).
    reflexivity.
Qed.

(** ** The phones of a record are valid *)

Lemma add_phone_valid phone r :
  phones_valid r -> phones_valid (snd (Record.add_phone phone r)).
Proof.
  intros H. rewrite add_phone_run.
  destruct (Phone.init phone) as [q |] eqn:E; [| exact H].
  cbn. unfold phones_valid. cbn. apply Forall_app. split; [exact H |].
  constructor; [| constructor].
  apply Phone_init_ok in E. destruct E as [-> E]. exact E.
Qed.

Lemma remove_phone_valid phone r :
  phones_valid r -> phones_valid (snd (Record.remove_phone phone r)).
Proof.
  intros H. destruct (phone_found_or_not r phone) as [(l1 & p & l2 & Hf) | Hn].
  - rewrite (remove_phone_ok _ _ _ _ _ Hf). cbn. unfold phones_valid in *.
    cbn. destruct Hf as (E & _). rewrite E in H.
    apply Forall_app in H. destruct H as [H1 H2].
    apply Forall_app. split; [exact H1 |]. inversion H2; assumption.
  - rewrite remove_phone_run.
    rewrite (proj2 (find_phone_raise r phone _) (conj eq_refl Hn)). exact H.
Qed.

Lemma edit_phone_valid old new r :
  phones_valid r -> phones_valid (snd (Record.edit_phone old new r)).
Proof.
  intros H. destruct (phone_found_or_not r old) as [(l1 & p & l2 & Hf) | Hn].
  - destruct (Phone.init new) as [q |] eqn:Hq.
    + rewrite (edit_phone_ok _ _ _ _ _ _ _ Hf Hq). cbn.
      unfold phones_valid in *. cbn. destruct Hf as (E & _). rewrite E in H.
      apply Forall_app in H. destruct H as [H1 H2].
      apply Forall_app. split; [exact H1 |].
      inversion H2; subst. constructor; [| assumption].
      apply Phone_init_ok in Hq. destruct Hq as [-> Hq]. exact Hq.
    + rewrite edit_phone_run.
      rewrite (proj2 (find_phone_ok r old p)) by eauto. rewrite Hq. exact H.
  - rewrite edit_phone_run.
    rewrite (proj2 (find_phone_raise r old _) (conj eq_refl Hn)). exact H.
Qed.

Lemma add_birthday_valid birthday r :
  phones_valid r -> phones_valid (snd (Record.add_birthday birthday r)).
Proof.
  intros H. rewrite add_birthday_run.
  destruct (Birthday.init birthday); exact H.
Qed.

Lemma run_call_valid c r :
  phones_valid r -> phones_valid (snd (run_call c r)).
Proof.
  destruct c; cbn [run_call].
  - apply add_phone_valid.
  - apply remove_phone_valid.
  - apply edit_phone_valid.
  - apply add_birthday_valid.
Qed.

(** C9, as stated, fails with the digits of the data model, ten ASCII
    digits: [add_phone] of ten superscript twos succeeds on a new
    record and leaves in its list a phone that is not ten ASCII
    digits. *)
Lemma C9_counterexample :
  Record.add_phone ten_superscript_twos (Record.init (lit "John"))
  = (Ok tt,
     {| Record.name := Name.init (lit "John");
        Record.phones := [ {| Phone.value := ten_superscript_twos |} ];
        Record.birthday := None |})
  /\ phones_ascii
       (run_calls [AddPhone ten_superscript_twos] (Record.init (lit "John")))
     = false.
Proof. split; vm_compute; reflexivity. Qed.

(** C9 (amended): every phone in the list of a record is a string of
    exactly ten characters, each a digit as [str.isdigit] has them (for
    a value of ASCII characters: exactly ten ASCII digits): so it is for
    a new record, each of [add_phone], [remove_phone] and [edit_phone]
    keeps it so, whether it returns or raises, and so it is after any
    sequence of calls on a new record. The values stored are the very
    strings that went through the constructor of [Phone]. *)
Theorem C9_phones_stay_valid (name : str) (calls : list call) :
  phones_valid (Record.init name)
  /\ (forall r, phones_valid r ->
        (forall phone, phones_valid (snd (Record.add_phone phone r)))
        /\ (forall phone, phones_valid (snd (Record.remove_phone phone r)))
        /\ (forall old new, phones_valid (snd (Record.edit_phone old new r))))
  /\ phones_valid (run_calls calls (Record.init name))
  /\ (forall p, In p (Record.phones (run_calls calls (Record.init name))) ->
        Phone.init (Phone.value p) = Ok p)
  /\ (forall p, In p (Record.phones (run_calls calls (Record.init name))) ->
        Forall (fun c => 0 <= c < 128) (Phone.value p) ->
        ten_ascii_digits (Phone.value p) = true).
Proof.
  assert (Hinit : phones_valid (Record.init name)) by constructor.
  assert (Hrun : phones_valid (run_calls calls (Record.init name))).
  { unfold run_calls. generalize (Record.init name) Hinit.
    induction calls as [| c cs IH]; intros r Hr; cbn [fold_left].
    - exact Hr.
    - apply IH. apply run_call_valid. exact Hr. }
  split; [exact Hinit |]. split; [| split; [exact Hrun | split]].
  - intros r Hr. split; [| split].
    + intros phone. apply add_phone_valid. exact Hr.
    + intros phone. apply remove_phone_valid. exact Hr.
    + intros old new. apply edit_phone_valid. exact Hr.
  - intros p Hp. unfold phones_valid in Hrun. rewrite Forall_forall in Hrun.
    apply Phone_init_ok. split; [destruct p; reflexivity |].
    apply Hrun. exact Hp.
  - intros p Hp Hascii. unfold phones_valid in Hrun.
    rewrite Forall_forall in Hrun.
    rewrite (ten_digits_ascii _ Hascii). apply Hrun. exact Hp.
Qed.

Lemma C6_edit_phone_in_place_witness :
  Record.edit_phone (lit "5555555555") (lit "0936666666") three_phones
  = (Ok tt,
     {| Record.name := Name.init (lit "John");
        Record.phones := [ {| Phone.value := lit "0937777777" |};
                           {| Phone.value := lit "0936666666" |};
                           {| Phone.value := lit "9876543210" |} ];
        Record.birthday := None |})
  /\ nth_error
       (Record.phones
          (snd (Record.edit_phone (lit "5555555555") (lit "0936666666")
                  three_phones))) 1
     = Some {| Phone.value := lit "0936666666" |}.
Proof.
  destruct (proj1 (C6_edit_phone_in_place three_phones (lit "5555555555")
                     (lit "0936666666"))
              [ {| Phone.value := lit "0937777777" |} ]
              {| Phone.value := lit "5555555555" |}
              [ {| Phone.value := lit "9876543210" |} ])
    as (E & _ & Hnth).
  - split; [reflexivity |]. split; [reflexivity |].
    intros z [<- | []]. cbn. discriminate.
  - vm_compute. reflexivity.
  - split; [exact E | exact Hnth].
Defined.

(** ** dict *)

Section DictFacts.
Context {V : Type}.
Implicit Types (d : dict V) (k : str) (v : V).

Lemma dict_contains_In d k :
  dict_contains d k = true <-> In k (dict_keys d).
Proof.
  induction d as [| [k' v'] d IH]; cbn.
  - split; [discriminate | intros []].
  - rewrite orb_true_iff, str_eqb_eq, IH. reflexivity.
Qed.

Lemma dict_contains_false d k :
  dict_contains d k = false <-> ~ In k (dict_keys d).
Proof.
  rewrite <- dict_contains_In. destruct (dict_contains d k); split.
  - discriminate.
  - intros H. destruct (H eq_refl).
  - intros _. discriminate.
  - reflexivity.
Qed.

Lemma dict_getitem_ok d k v :
  dict_wf d -> (dict_getitem d k = Ok v <-> In (k, v) d).
Proof.
  unfold dict_wf. induction d as [| [k' v'] d IH]; cbn; intros Hwf.
  - split; [discriminate | intros []].
  - inversion Hwf as [| ? ? Hnotin Hwf']; subst.
    destruct (str_eqb k' k) eqn:E.
    + apply str_eqb_eq in E. subst k'. split.
      * intros [= ->]. left. reflexivity.
      * intros [[= ->] | Hin]; [reflexivity |].
        exfalso. apply Hnotin. apply in_map_iff. exists (k, v). auto.
    + rewrite (IH Hwf'). apply str_eqb_neq in E. split.
      * intros H. right. exact H.
      * intros [[= -> _] | Hin]; [contradiction | exact Hin].
Qed.

Lemma dict_getitem_raise d k e :
  dict_getitem d k = Raise e <-> e = KeyError k /\ dict_contains d k = false.
Proof.
  induction d as [| [k' v'] d IH]; cbn.
  - split; [intros [= <-]; auto | intros [-> _]; reflexivity].
  - destruct (str_eqb k' k); cbn.
    + split; [discriminate | intros [_ H]; discriminate].
    + exact IH.
Qed.

Lemma dict_delitem_ok d k :
  dict_contains d k = true ->
  exists d', dict_delitem d k = Ok d'.
Proof.
  induction d as [| [k' v'] d IH]; cbn; [discriminate |].
  destruct (str_eqb k' k); cbn; [eauto |].
  intros H. destruct (IH H) as [d' ->]. cbn. eauto.
Qed.

Lemma dict_delitem_raise d k e :
  dict_delitem d k = Raise e -> dict_contains d k = false.
Proof.
  induction d as [| [k' v'] d IH]; cbn; [reflexivity |].
  destruct (str_eqb k' k); cbn; [discriminate |].
  destruct (dict_delitem d k); cbn; [discriminate |].
  intros [= <-]. apply IH. reflexivity.
Qed.

(** [del d[k]] on a dict takes away the item of key [k] and nothing
    else, and keeps the order. *)
Lemma dict_delitem_filter d k d' :
  dict_wf d -> dict_delitem d k = Ok d' ->
  d' = filter (fun kv => negb (str_eqb (fst kv) k)) d.
Proof.
  unfold dict_wf. revert d'.
  induction d as [| [k' v'] d IH]; cbn; intros d' Hwf; [discriminate |].
  inversion Hwf as [| ? ? Hnotin Hwf']; subst.
  destruct (str_eqb k' k) eqn:E; cbn.
  - intros [= <-]. apply str_eqb_eq in E. subst k'.
    symmetry. apply forallb_filter_id. apply forallb_forall.
    intros [k2 v2] Hin. cbn. apply negb_true_iff. apply str_eqb_neq.
    intros ->. apply Hnotin. apply in_map_iff. exists (k, v2). auto.
  - destruct (dict_delitem d k) as [r |] eqn:Hr; cbn; [| discriminate].
    intros [= <-]. f_equal. apply IH; auto.
Qed.

Lemma filter_keys_NoDup d (f : str * V -> bool) :
  dict_wf d -> dict_wf (filter f d).
Proof.
  unfold dict_wf, dict_keys. induction d as [| kv d IH]; cbn; intros Hwf;
    [constructor |].
  inversion Hwf as [| ? ? Hnotin Hwf']; subst.
  destruct (f kv); cbn; [| auto].
  constructor; [| auto].
  intros Hin. apply Hnotin. apply in_map_iff in Hin.
  destruct Hin as (kv' & E & Hin). apply filter_In in Hin.
  apply in_map_iff. exists kv'. tauto.
Qed.

Lemma dict_setitem_keys d k v :
  dict_keys (dict_setitem d k v)
  = if dict_contains d k then dict_keys d else dict_keys d ++ [k].
Proof.
  unfold dict_keys. induction d as [| [k' v'] d IH]; cbn; [reflexivity |].
  destruct (str_eqb k' k) eqn:E; cbn; [reflexivity |].
  rewrite IH. destruct (dict_contains d k); reflexivity.
Qed.

Lemma dict_setitem_wf d k v : dict_wf d -> dict_wf (dict_setitem d k v).
Proof.
  unfold dict_wf. rewrite dict_setitem_keys.
  destruct (dict_contains d k) eqn:E; [auto |].
  intros Hwf. apply dict_contains_false in E.
  apply NoDup_app; [exact Hwf | repeat constructor; intros [] |].
  intros x Hx [<- | []]. contradiction.
Qed.

Lemma dict_getitem_setitem d k v k' :
  dict_getitem (dict_setitem d k v) k'
  = if str_eqb k k' then Ok v else dict_getitem d k'.
Proof.
  induction d as [| [k0 v0] d IH]; cbn.
  - destruct (str_eqb k k'); reflexivity.
  - destruct (str_eqb k0 k) eqn:E; cbn.
    + apply str_eqb_eq in E. subst k0. destruct (str_eqb k k'); reflexivity.
    + destruct (str_eqb k0 k') eqn:E'; [| exact IH].
      apply str_eqb_eq in E'. subst k'.
      replace (str_eqb k k0) with false; [reflexivity |].
      symmetry. apply str_eqb_neq. apply str_eqb_neq in E.
      intros H. apply E. symmetry. exact H.
Qed.

Lemma dict_contains_setitem d k v k' :
  dict_contains (dict_setitem d k v) k'
  = str_eqb k k' || dict_contains d k'.
Proof.
  induction d as [| [k0 v0] d IH]; cbn.
  - reflexivity.
  - destruct (str_eqb k0 k) eqn:E; cbn.
    + apply str_eqb_eq in E. subst k0.
      destruct (str_eqb k k'); reflexivity.
    + rewrite IH. destruct (str_eqb k0 k'), (str_eqb k k'); reflexivity.
Qed.
End DictFacts.

(** ** AddressBook.find and AddressBook.delete *)

Lemma without_contains name data k :
  dict_contains (without name data) k
  = negb (str_eqb k name) && dict_contains data k.
Proof.
  unfold without. induction data as [| [k' v'] data IH]; cbn.
  - rewrite andb_false_r. reflexivity.
  - destruct (str_eqb k' name) eqn:E; cbn.
    + rewrite IH. apply str_eqb_eq in E. subst k'.
      destruct (str_eqb name k) eqn:E'; [| reflexivity].
      apply str_eqb_eq in E'. subst k. rewrite str_eqb_refl. reflexivity.
    + rewrite IH. destruct (str_eqb k' k) eqn:E'; [| reflexivity].
      apply str_eqb_eq in E'. subst k'. rewrite E. reflexivity.
Qed.

Lemma without_getitem name data k :
  k <> name ->
  dict_getitem (without name data) k = dict_getitem data k.
Proof.
  intros Hk. unfold without. induction data as [| [k' v'] data IH]; cbn.
  - reflexivity.
  - destruct (str_eqb k' name) eqn:E; cbn.
    + rewrite IH. apply str_eqb_eq in E. subst k'.
      replace (str_eqb name k) with false; [reflexivity |].
      symmetry. apply str_eqb_neq. intros H. apply Hk. symmetry. exact H.
    + rewrite IH. reflexivity.
Qed.

Lemma find_ok data name r :
  dict_wf data -> (AddressBook.find name data = Ok r <-> In (name, r) data).
Proof.
  intros Hwf. unfold AddressBook.find.
  rewrite <- (dict_getitem_ok data name r Hwf).
  destruct (dict_contains data name) eqn:E; [reflexivity |].
  split; [discriminate |]. intros H.
  assert (Hr : dict_getitem data name = Raise (KeyError name))
    by (apply dict_getitem_raise; auto).
  rewrite Hr in H. discriminate.
Qed.

Lemma find_raise data name e :
  AddressBook.find name data = Raise e <->
  e = ValueError AddressBook.not_found_msg /\ dict_contains data name = false.
Proof.
  unfold AddressBook.find. destruct (dict_contains data name) eqn:E.
  - destruct (dict_getitem data name) as [r | e'] eqn:Hg.
    + split; [discriminate | intros [_ H]; discriminate].
    + apply dict_getitem_raise in Hg. destruct Hg as [_ Hg].
      rewrite Hg in E. discriminate.
  - split; [intros [= <-]; auto | intros [-> _]; reflexivity].
Qed.

Lemma delete_run name data :
  AddressBook.delete name data =
  if dict_contains data name
  then match dict_delitem data name with
       | Ok data' => (Ok tt, data')
       | Raise e => (Raise e, data)
       end
  else (Raise (ValueError AddressBook.not_found_msg), data).
Proof.
  unfold AddressBook.delete, bind, reads, update, raise.
  destruct (dict_contains data name); reflexivity.
Qed.

Lemma delete_ok name data :
  dict_wf data -> dict_contains data name = true ->
  AddressBook.delete name data = (Ok tt, without name data).
Proof.
  intros Hwf Hc. rewrite delete_run, Hc.
  destruct (dict_delitem_ok data name Hc) as [data' E]. rewrite E.
  rewrite (dict_delitem_filter data name data' Hwf E). reflexivity.
Qed.

(** C7: [delete(name)] fails with the not-found error exactly when
    [name] is absent, the directory left as it was; otherwise it takes
    the entry of [name] away and leaves the others as they were, in
    their order; after it [find(name)] fails with the not-found error.
    [find(name)] returns the record stored under [name] exactly when
    there is one. *)
Theorem C7_delete_and_find (data : AddressBook.t) (name : str) :
  dict_wf data ->
  (dict_contains data name = false ->
     AddressBook.delete name data
     = (Raise (ValueError AddressBook.not_found_msg), data)
     /\ AddressBook.find name data
        = Raise (ValueError AddressBook.not_found_msg))
  /\ (dict_contains data name = true ->
        AddressBook.delete name data = (Ok tt, without name data)
        /\ AddressBook.find name (without name data)
           = Raise (ValueError AddressBook.not_found_msg)
        /\ (forall other, other <> name ->
              AddressBook.find other (without name data)
              = AddressBook.find other data)
        /\ exists r, AddressBook.find name data = Ok r)
  /\ (forall r, AddressBook.find name data = Ok r <-> In (name, r) data).
Proof.
  intros Hwf. split; [| split].
  - intros Hc. split.
    + rewrite delete_run, Hc. reflexivity.
    + apply find_raise. auto.
  - intros Hc. split; [exact (delete_ok name data Hwf Hc) |]. split; [| split].
    + apply find_raise. split; [reflexivity |].
      rewrite without_contains, str_eqb_refl. reflexivity.
    + intros other Hother. unfold AddressBook.find.
      rewrite without_contains, (without_getitem name data other Hother).
      replace (str_eqb other name) with false; [reflexivity |].
      symmetry. apply str_eqb_neq. exact Hother.
    + destruct (AddressBook.find name data) as [r | e] eqn:E; [eauto |].
      apply find_raise in E. destruct E as [_ E]. rewrite E in Hc.
      discriminate.
  - intros r. apply find_ok. exact Hwf.
Qed.

Lemma demo_book_wf : dict_wf demo_book.
Proof.
  unfold dict_wf. cbn. constructor.
  - intros [H | []]. discriminate H.
  - constructor; [intros [] | constructor].
Qed.

Lemma C7_delete_and_find_witness :
  AddressBook.delete (lit "Jane") demo_book
  = (Ok tt, [(lit "John", john_record)])
  /\ AddressBook.find (lit "Jane") [(lit "John", john_record)]
     = Raise (ValueError AddressBook.not_found_msg).
Proof.
  destruct (C7_delete_and_find demo_book (lit "Jane") demo_book_wf)
    as (_ & H & _).
  destruct (H eq_refl) as (Hd & Hf & _).
  split; [exact Hd | exact Hf].
Defined.

(** ** One type of exception *)

Lemma remove_phone_raise v r e r' :
  Record.remove_phone v r = (Raise e, r') ->
  e = ValueError Record.not_found_msg /\ r' = r.
Proof.
  destruct (phone_found_or_not r v) as [(l1 & p & l2 & Hf) | Hn].
  - rewrite (remove_phone_ok _ _ _ _ _ Hf). discriminate.
  - rewrite remove_phone_run.
    rewrite (proj2 (find_phone_raise r v _) (conj eq_refl Hn)).
    intros [= <- <-]. auto.
Qed.

Lemma edit_phone_raise old new r e r' :
  Record.edit_phone old new r = (Raise e, r') ->
  is_ValueError e = true.
Proof.
  destruct (phone_found_or_not r old) as [(l1 & p & l2 & Hf) | Hn].
  - destruct (Phone.init new) as [q |] eqn:Hq.
    + rewrite (edit_phone_ok _ _ _ _ _ _ _ Hf Hq). discriminate.
    + rewrite edit_phone_run.
      rewrite (proj2 (find_phone_ok r old p)) by eauto. rewrite Hq.
      intros [= <- _]. apply Phone_init_raise in Hq.
      destruct Hq as [-> | ->]; reflexivity.
  - rewrite edit_phone_run.
    rewrite (proj2 (find_phone_raise r old _) (conj eq_refl Hn)).
    intros [= <- _]. reflexivity.
Qed.

Lemma delete_raise name data e data' :
  AddressBook.delete name data = (Raise e, data') ->
  e = ValueError AddressBook.not_found_msg /\ data' = data.
Proof.
  rewrite delete_run. destruct (dict_contains data name) eqn:Hc.
  - destruct (dict_delitem_ok data name Hc) as [d' ->]. discriminate.
  - intros [= <- <-]. auto.
Qed.

(** C10: every exception the interface raises is a [ValueError]: from
    the validation of a phone or of a birthday, from [find_phone],
    [remove_phone] and [edit_phone] on a phone that is not there, from
    [find] and [delete] on a name that is not there, and from the
    methods built on them. The lookups of the dictionary and of the list
    behind them, which would raise a KeyError or an IndexError, are
    guarded and never do. *)
Theorem C10_one_exception_type (e : exception) :
  (forall s, Phone.init s = Raise e -> is_ValueError e = true)
  /\ (forall s, Birthday.init s = Raise e -> is_ValueError e = true)
  /\ (forall r s, Record.find_phone s r = Raise e -> is_ValueError e = true)
  /\ (forall r s r', Record.add_phone s r = (Raise e, r') ->
        is_ValueError e = true)
  /\ (forall r s r', Record.remove_phone s r = (Raise e, r') ->
        is_ValueError e = true)
  /\ (forall r old new r', Record.edit_phone old new r = (Raise e, r') ->
        is_ValueError e = true)
  /\ (forall r s r', Record.add_birthday s r = (Raise e, r') ->
        is_ValueError e = true)
  /\ (forall data name, AddressBook.find name data = Raise e ->
        is_ValueError e = true)
  /\ (forall data name data', AddressBook.delete name data = (Raise e, data') ->
        is_ValueError e = true).
Proof.
  assert (HP : forall s, Phone.init s = Raise e -> is_ValueError e = true).
  { intros s H. apply Phone_init_raise in H. destruct H as [-> | ->];
      reflexivity. }
  assert (HB : forall s, Birthday.init s = Raise e -> is_ValueError e = true).
  { intros s H. apply Birthday_init_raise in H. subst. reflexivity. }
  split; [exact HP |]. split; [exact HB |].
  split; [| split; [| split; [| split; [| split; [| split]]]]].
  - intros r s H. apply find_phone_raise in H. destruct H as [-> _].
    reflexivity.
  - intros r s r'. rewrite add_phone_run.
    destruct (Phone.init s) eqn:E; [discriminate |].
    intros [= <- _]. exact (HP s E).
  - intros r s r' H. apply remove_phone_raise in H. destruct H as [-> _].
    reflexivity.
  - intros r old new r'. apply edit_phone_raise.
  - intros r s r'. rewrite add_birthday_run.
    destruct (Birthday.init s) eqn:E; [discriminate |].
    intros [= <- _]. exact (HB s E).
  - intros data name H. apply find_raise in H. destruct H as [-> _].
    reflexivity.
  - intros data name data' H. apply delete_raise in H. destruct H as [-> _].
    reflexivity.
Qed.

(** * Further properties of the code *)

(** ** Record: phones *)

Lemma set_phones_same r : Record.set_phones r (Record.phones r) = r.
Proof. destruct r. reflexivity. Qed.

Lemma find_exists {A} (f : A -> bool) l z :
  In z l -> f z = true -> exists x, find f l = Some x /\ f x = true.
Proof.
  intros Hin Hz. destruct (find f l) as [x |] eqn:E.
  - exists x. split; [reflexivity |]. exact (proj2 (find_some _ _ E)).
  - rewrite (find_none _ _ E z Hin) in Hz. discriminate.
Qed.

(** X1: [find_phone(v)] returns the first phone of the list whose value
    is [v], the phones before it having other values; it raises the
    not-found ValueError exactly when no phone has the value [v]. *)
Theorem X1_find_phone_first (r : Record.t) (v : str) :
  (forall p, Record.find_phone v r = Ok p <->
     exists l1 l2, first_phone_at r l1 p l2 v)
  /\ (Record.find_phone v r = Raise (ValueError Record.not_found_msg) <->
      no_phone r v)
  /\ (forall p, Record.find_phone v r = Ok p ->
        In p (Record.phones r) /\ Phone.value p = v).
Proof.
  split; [| split].
  - intros p. apply find_phone_ok.
  - rewrite find_phone_raise. tauto.
  - intros p H. apply find_phone_ok in H.
    destruct H as (l1 & l2 & E & Hp & _). split; [| exact Hp].
    rewrite E. apply in_or_app. right. left. reflexivity.
Qed.

(** X2: [remove_phone(v)] takes the first phone of value [v] out of the
    list and leaves the others in place and in order, one phone fewer;
    when no phone has the value [v] it raises the not-found ValueError
    and the record is as it was. *)
Theorem X2_remove_phone_first (r : Record.t) (v : str) :
  (forall l1 p l2,
     first_phone_at r l1 p l2 v ->
     Record.remove_phone v r
     = (Ok tt,
        {| Record.name := Record.name r;
           Record.phones := l1 ++ l2;
           Record.birthday := Record.birthday r |})
     /\ Record.phones (snd (Record.remove_phone v r)) = l1 ++ l2
     /\ S (List.length (Record.phones (snd (Record.remove_phone v r))))
        = List.length (Record.phones r))
  /\ (no_phone r v ->
      Record.remove_phone v r
      = (Raise (ValueError Record.not_found_msg), r)).
Proof.
  split.
  - intros l1 p l2 Hf.
    assert (E : Record.remove_phone v r
                = (Ok tt,
                   {| Record.name := Record.name r;
                      Record.phones := l1 ++ l2;
                      Record.birthday := Record.birthday r |}))
      by exact (remove_phone_ok _ _ _ _ _ Hf).
    rewrite E. cbn [snd Record.phones]. split; [reflexivity |].
    split; [reflexivity |].
    destruct Hf as (Er & _). rewrite Er, !length_app. cbn. lia.
  - intros Hn. rewrite remove_phone_run.
    rewrite (proj2 (find_phone_raise r v _) (conj eq_refl Hn)). reflexivity.
Qed.

(** X3: [add_phone(v)] with a valid [v] always succeeds and puts the
    new phone at the end of the list, after the phones already there,
    also when a phone of the same value is already in the list: there
    is no check for duplicates. Name and birthday are not touched. *)
Theorem X3_add_phone_appends (r : Record.t) (v : str) :
  ten_digits v = true ->
  Record.add_phone v r
  = (Ok tt,
     {| Record.name := Record.name r;
        Record.phones := Record.phones r ++ [ {| Phone.value := v |} ];
        Record.birthday := Record.birthday r |})
  /\ (forall p, In p (Record.phones r) -> Phone.value p = v ->
      exists l, Record.phones (snd (Record.add_phone v r))
                = l ++ [ {| Phone.value := v |} ]
                /\ In {| Phone.value := v |} l).
Proof.
  intros Hv.
  assert (E : Phone.init v = Ok {| Phone.value := v |})
    by (apply Phone_init_ok; auto).
  rewrite add_phone_run, E. split; [reflexivity |].
  intros p Hin Hp. exists (Record.phones r). split; [reflexivity |].
  destruct p as [pv]. cbn in Hp. subst pv. exact Hin.
Qed.

Lemma X3_add_phone_appends_witness :
  Record.add_phone (lit "5555555555") three_phones
  = (Ok tt,
     Record.set_phones three_phones
       [ {| Phone.value := lit "0937777777" |};
         {| Phone.value := lit "5555555555" |};
         {| Phone.value := lit "9876543210" |};
         {| Phone.value := lit "5555555555" |} ]).
Proof.
  destruct (X3_add_phone_appends three_phones (lit "5555555555")) as [E _].
  - vm_compute. reflexivity.
  - exact E.
Defined.

(** X4: adding a phone and removing it again. When no phone of the
    record has the value [v], [add_phone(v)] followed by
    [remove_phone(v)] gives the record back; when one has, it is the
    older phone that is removed and the new one stays at the end. *)
Theorem X4_add_then_remove (r : Record.t) (v : str) :
  ten_digits v = true ->
  (no_phone r v ->
     (_ <~ Record.add_phone v ;; Record.remove_phone v) r = (Ok tt, r))
  /\ (forall l1 p l2,
        first_phone_at r l1 p l2 v ->
        (_ <~ Record.add_phone v ;; Record.remove_phone v) r
        = (Ok tt,
           Record.set_phones r (l1 ++ l2 ++ [ {| Phone.value := v |} ]))).
Proof.
  intros Hv.
  assert (E : Phone.init v = Ok {| Phone.value := v |})
    by (apply Phone_init_ok; auto).
  split.
  - intros Hn. unfold bind at 1. rewrite add_phone_run, E.
    rewrite (remove_phone_ok v _ (Record.phones r) {| Phone.value := v |} []).
    + rewrite app_nil_r. destruct r; reflexivity.
    + split; [reflexivity |]. split; [reflexivity | exact Hn].
  - intros l1 p l2 (Hr & Hp & Hl1). unfold bind at 1.
    rewrite add_phone_run, E.
    rewrite (remove_phone_ok v _ l1 p (l2 ++ [ {| Phone.value := v |} ])).
    + destruct r; reflexivity.
    + split; [| split; assumption]. cbn. rewrite Hr, <- app_assoc.
      reflexivity.
Qed.

Lemma X4_add_then_remove_witness :
  (_ <~ Record.add_phone (lit "0931112233") ;;
        Record.remove_phone (lit "0931112233")) three_phones
  = (Ok tt, three_phones).
Proof.
  apply (proj1 (X4_add_then_remove three_phones (lit "0931112233") eq_refl)).
  intros z [<- | [<- | [<- | []]]]; cbn; discriminate.
Defined.

(** X5: after a successful [edit_phone(old, new)] the record has as
    many phones as before and [find_phone(new)] succeeds; when [new]
    differs from [old] and [old] occurred once, [find_phone(old)] now
    raises; when [old] occurred again further on, that second phone is
    still found: only the first occurrence is edited. *)
Theorem X5_edit_then_find (r : Record.t) (old new : str)
    (l1 : list Phone.t) (p : Phone.t) (l2 : list Phone.t) :
  first_phone_at r l1 p l2 old -> ten_digits new = true ->
  let r' := snd (Record.edit_phone old new r) in
  List.length (Record.phones r') = List.length (Record.phones r)
  /\ (exists q, Record.find_phone new r' = Ok q /\ Phone.value q = new)
  /\ (old <> new -> (forall z, In z l2 -> Phone.value z <> old) ->
      Record.find_phone old r'
      = Raise (ValueError Record.not_found_msg))
  /\ (old <> new -> forall z, In z l2 -> Phone.value z = old ->
      exists q, Record.find_phone old r' = Ok q /\ In q l2).
Proof.
  intros Hf Hnew r'.
  assert (Er : r' = Record.set_phones r (l1 ++ {| Phone.value := new |} :: l2)).
  { unfold r'. rewrite (edit_phone_ok old new r l1 p l2 {| Phone.value := new |});
      [reflexivity | exact Hf | apply Phone_init_ok; auto]. }
  destruct Hf as (E & Hp & Hl1). rewrite Er. cbn [Record.set_phones Record.phones].
  split; [| split; [| split]].
  - rewrite E, !length_app. reflexivity.
  - unfold Record.find_phone. cbn [Record.phones Record.set_phones].
    destruct (find_exists (fun p0 => str_eqb (Phone.value p0) new)
                (l1 ++ {| Phone.value := new |} :: l2) {| Phone.value := new |})
      as (q & -> & Hq).
    + apply in_or_app. right. left. reflexivity.
    + apply str_eqb_refl.
    + exists q. split; [reflexivity | apply str_eqb_eq; exact Hq].
  - intros Hne Hl2. apply find_phone_raise. split; [reflexivity |].
    intros z Hz. cbn [Record.phones Record.set_phones] in Hz. apply in_app_or in Hz.
    destruct Hz as [Hz | [<- | Hz]]; auto;
      cbn; intros H; apply Hne; symmetry; exact H.
  - intros Hne z Hz Hzv. unfold Record.find_phone. cbn [Record.phones Record.set_phones].
    destruct (find_exists (fun p0 => str_eqb (Phone.value p0) old)
                (l1 ++ {| Phone.value := new |} :: l2) z)
      as (q & Eq & Hq).
    + apply in_or_app. right. right. exact Hz.
    + apply str_eqb_eq. exact Hzv.
    + rewrite Eq. exists q. split; [reflexivity |].
      apply find_some in Eq. destruct Eq as [Hin _].
      apply str_eqb_eq in Hq. apply in_app_or in Hin.
      destruct Hin as [Hin | [<- | Hin]]; [| | exact Hin].
      * destruct (Hl1 q Hin Hq).
      * cbn in Hq. destruct (Hne (eq_sym Hq)).
Qed.

Lemma X5_edit_then_find_witness :
  Record.find_phone (lit "0936666666")
    (snd (Record.edit_phone (lit "5555555555") (lit "0936666666") three_phones))
  = Ok {| Phone.value := lit "0936666666" |}.
Proof.
  destruct (X5_edit_then_find three_phones (lit "5555555555")
              (lit "0936666666")
              [ {| Phone.value := lit "0937777777" |} ]
              {| Phone.value := lit "5555555555" |}
              [ {| Phone.value := lit "9876543210" |} ])
    as (_ & (q & Hq & _) & _).
  - split; [reflexivity |]. split; [reflexivity |].
    intros z [<- | []]. cbn. discriminate.
  - vm_compute. reflexivity.
  - vm_compute. reflexivity.
Defined.

(** X6: [add_birthday] overwrites: after two calls the birthday of the
    record is the one of the second call when that one is valid,
    whatever the first call was given and whether it raised; phones and
    name are as before. *)
Theorem X6_add_birthday_overwrites (r : Record.t) (s1 s2 : str) (b : Birthday.t) :
  Birthday.init s2 = Ok b ->
  snd (Record.add_birthday s2 (snd (Record.add_birthday s1 r)))
  = {| Record.name := Record.name r;
       Record.phones := Record.phones r;
       Record.birthday := Some b |}.
Proof.
  intros H2. rewrite !add_birthday_run, H2.
  destruct (Birthday.init s1); reflexivity.
Qed.

Lemma X6_add_birthday_overwrites_witness :
  snd (Record.add_birthday (lit "25.12.1990")
         (snd (Record.add_birthday (lit "31.02.1990") jane_record)))
  = {| Record.name := Name.init (lit "Jane");
       Record.phones := [];
       Record.birthday := Some {| Birthday.value := john_birthday |} |}.
Proof.
  apply (X6_add_birthday_overwrites jane_record (lit "31.02.1990")
           (lit "25.12.1990") {| Birthday.value := john_birthday |}).
  vm_compute. reflexivity.
Defined.

(** ** AddressBook: add_record *)

Lemma dict_setitem_absent {V} (d : dict V) k v :
  dict_contains d k = false -> dict_setitem d k v = d ++ [(k, v)].
Proof.
  induction d as [| [k' v'] d IH]; cbn; [reflexivity |].
  destruct (str_eqb k' k); cbn; [discriminate |].
  intros H. rewrite (IH H). reflexivity.
Qed.

Lemma without_absent name data :
  dict_contains data name = false -> without name data = data.
Proof.
  unfold without. induction data as [| [k' v'] data IH]; cbn; [reflexivity |].
  destruct (str_eqb k' name); cbn; [discriminate |].
  intros H. rewrite (IH H). reflexivity.
Qed.

Lemma without_app name d1 d2 :
  without name (d1 ++ d2) = without name d1 ++ without name d2.
Proof. unfold without. apply filter_app. Qed.

(** X7: [add_record(record)] never raises; afterwards [find] of the
    record's name returns that record and [find] of any other name is
    as before. A name already in the directory keeps its place in the
    order (the old record is overwritten), a new name comes last; no
    name is in the directory twice. *)
Theorem X7_add_record_then_find (data : AddressBook.t) (record : Record.t) :
  dict_wf data ->
  let name := Name.value (Record.name record) in
  let data' := snd (AddressBook.add_record record data) in
  fst (AddressBook.add_record record data) = Ok tt
  /\ dict_wf data'
  /\ AddressBook.find name data' = Ok record
  /\ (forall other, other <> name ->
        AddressBook.find other data' = AddressBook.find other data)
  /\ dict_keys data'
     = (if dict_contains data name then dict_keys data
        else dict_keys data ++ [name]).
Proof.
  intros Hwf name data'. unfold data', AddressBook.add_record, modify.
  cbn [fst snd]. fold name.
  split; [reflexivity |]. split; [apply dict_setitem_wf; exact Hwf |].
  split; [| split].
  - unfold AddressBook.find.
    rewrite dict_contains_setitem, dict_getitem_setitem, str_eqb_refl.
    reflexivity.
  - intros other Hother. unfold AddressBook.find.
    rewrite dict_contains_setitem, dict_getitem_setitem.
    replace (str_eqb name other) with false; [reflexivity |].
    symmetry. apply str_eqb_neq. intros H. apply Hother. symmetry. exact H.
  - apply dict_setitem_keys.
Qed.

Lemma X7_add_record_then_find_witness :
  AddressBook.find (lit "Jane")
    (snd (AddressBook.add_record jane_record [(lit "John", john_record)]))
  = Ok jane_record.
Proof.
  destruct (X7_add_record_then_find [(lit "John", john_record)] jane_record)
    as (_ & _ & H & _).
  - unfold dict_wf. cbn. constructor; [intros [] | constructor].
  - exact H.
Defined.

(** X8: adding a record under a name the directory does not hold and
    deleting that name again gives the directory back; adding it under a
    name the directory holds and deleting it removes the entry that was
    there. *)
Theorem X8_add_record_then_delete (data : AddressBook.t) (record : Record.t) :
  dict_wf data ->
  let name := Name.value (Record.name record) in
  (_ <~ AddressBook.add_record record ;; AddressBook.delete name) data
  = (Ok tt, without name data)
  /\ (dict_contains data name = false -> without name data = data).
Proof.
  intros Hwf name. split; [| apply without_absent].
  unfold bind, AddressBook.add_record, modify. fold name.
  rewrite delete_ok.
  - f_equal. destruct (dict_contains data name) eqn:Hc.
    + unfold without.
      induction data as [| [k v] data IH]; [discriminate |].
      cbn in Hc |- *. destruct (str_eqb k name) eqn:E; cbn.
      * rewrite E. reflexivity.
      * rewrite E. cbn. f_equal. apply IH; [| exact Hc].
        unfold dict_wf in *. cbn in Hwf. inversion Hwf; assumption.
    + rewrite (dict_setitem_absent data name record Hc), without_app.
      cbn. rewrite str_eqb_refl. cbn. apply app_nil_r.
  - apply dict_setitem_wf. exact Hwf.
  - rewrite dict_contains_setitem, str_eqb_refl. reflexivity.
Qed.

Lemma X8_add_record_then_delete_witness :
  (_ <~ AddressBook.add_record jane_record ;; AddressBook.delete (lit "Jane"))
    [(lit "John", john_record)]
  = (Ok tt, [(lit "John", john_record)]).
Proof.
  destruct (X8_add_record_then_delete [(lit "John", john_record)] jane_record)
    as [H _].
  - unfold dict_wf. cbn. constructor; [intros [] | constructor].
  - exact H.
Defined.

(** ** Record.days_to_birthday: bounds and failures *)

Lemma is_leap_succ y : date.is_leap y = true -> date.is_leap (y + 1) = false.
Proof.
  unfold date.is_leap. intros H.
  apply andb_true_iff in H. destruct H as [H _]. apply Z.eqb_eq in H.
  apply andb_false_iff. left. apply Z.eqb_neq.
  Z.div_mod_to_equations. lia.
Qed.

Lemma days_to_birthday_le_365 today r n :
  date.valid today ->
  Record.days_to_birthday today r = Ok (Some n) -> n <= 365.
Proof.
  intros Htoday. unfold Record.days_to_birthday.
  destruct (Record.birthday r) as [b |]; [| discriminate].
  destruct (date.replace_year (Birthday.value b) (date.year today))
    as [candidate |] eqn:Hc; [| discriminate].
  cbn [bind_result].
  destruct (replace_year_ok _ _ _ Hc) as [Ec Hvalid].
  assert (Hyc : date.year candidate = date.year today)
    by (rewrite Ec; reflexivity).
  pose proof (toordinal_in_year today Htoday) as Ht.
  pose proof (toordinal_in_year candidate Hvalid) as Hcand.
  rewrite Hyc, days_before_year_succ in Hcand.
  rewrite days_before_year_succ in Ht.
  destruct (date.lt candidate today) eqn:Hlt.
  - destruct (date.replace_year candidate (date.year today + 1))
      as [next |] eqn:Hn; [| discriminate].
    cbn [bind_result]. intros [= <-].
    destruct (replace_year_ok _ _ _ Hn) as [En Hnvalid].
    pose proof (toordinal_lt candidate today Hvalid Htoday Hlt) as Hord.
    unfold date.sub_days.
    assert (Hdiff : date.toordinal next - date.toordinal candidate <= 366).
    { rewrite En. unfold date.toordinal, date.ymd2ord, date.days_before_month.
      cbn [date.year date.month date.day]. rewrite Hyc.
      rewrite days_before_year_succ. unfold days_in_year.
      destruct (date.is_leap (date.year today)) eqn:L1.
      - rewrite (is_leap_succ _ L1).
        destruct (2 <? date.month candidate); cbn [andb]; lia.
      - destruct (2 <? date.month candidate);
          destruct (date.is_leap (date.year today + 1)); cbn [andb]; lia. }
    lia.
  - cbn [bind_result]. intros [= <-]. unfold date.sub_days.
    unfold days_in_year in *. destruct (date.is_leap (date.year today)); lia.
Qed.

(** X9: the value [days_to_birthday] returns, when it returns one, is
    from 0 to 365. *)
Theorem X9_days_to_birthday_bounds (today : date.t) (r : Record.t) (n : Z) :
  date.valid today ->
  Record.days_to_birthday today r = Ok (Some n) -> 0 <= n <= 365.
Proof.
  intros Htoday H. split.
  - exact (days_to_birthday_nonneg today r n Htoday H).
  - exact (days_to_birthday_le_365 today r n Htoday H).
Qed.

Lemma X9_days_to_birthday_bounds_witness : 0 <= 365 <= 365.
Proof.
  apply (X9_days_to_birthday_bounds new_year_2024 jane_record 365).
  - unfold date.valid. vm_compute. intuition discriminate.
  - vm_compute. reflexivity.
Defined.

Lemma date_lt_irrefl a : date.lt a a = false.
Proof.
  unfold date.lt. rewrite !Z.ltb_irrefl, !Z.eqb_refl. reflexivity.
Qed.

(** X10: [days_to_birthday] returns 0 exactly when the month and the
    day of the birthday are those of today. *)
Theorem X10_days_to_birthday_zero (today : date.t) (r : Record.t) (b : Birthday.t) :
  date.valid today -> Record.birthday r = Some b ->
  (Record.days_to_birthday today r = Ok (Some 0) <->
   date.month (Birthday.value b) = date.month today
   /\ date.day (Birthday.value b) = date.day today).
Proof.
  intros Htoday Hb. unfold Record.days_to_birthday. rewrite Hb. split.
  - destruct (date.replace_year (Birthday.value b) (date.year today))
      as [candidate |] eqn:Hc; [| discriminate].
    cbn [bind_result].
    destruct (replace_year_ok _ _ _ Hc) as [Ec Hvalid].
    destruct (date.lt candidate today) eqn:Hlt.
    + destruct (date.replace_year candidate (date.year today + 1))
        as [next |] eqn:Hn; [| discriminate].
      cbn [bind_result]. intros [= H0].
      destruct (replace_year_ok _ _ _ Hn) as [En Hnvalid].
      assert (Hy : date.year next = date.year today + 1)
        by (rewrite En; reflexivity).
      pose proof (toordinal_in_year today Htoday) as Ht.
      pose proof (toordinal_in_year next Hnvalid) as Hnx.
      rewrite Hy in Hnx. unfold date.sub_days in H0. lia.
    + cbn [bind_result]. intros [= H0]. unfold date.sub_days in H0.
      destruct (date_lt_false _ _ Hlt) as [E | Hgt].
      * rewrite <- E, Ec. cbn. auto.
      * pose proof (toordinal_lt today candidate Htoday Hvalid Hgt). lia.
  - intros [Hm Hd].
    assert (Hc : date.replace_year (Birthday.value b) (date.year today)
                 = Ok today).
    { unfold date.replace_year. rewrite Hm, Hd. apply date_new_ok.
      split; [destruct today; reflexivity | exact Htoday]. }
    rewrite Hc. cbn [bind_result]. rewrite date_lt_irrefl.
    cbn [bind_result]. unfold date.sub_days. do 2 f_equal. lia.
Qed.

Lemma X10_days_to_birthday_zero_witness :
  Record.days_to_birthday christmas_2024 john_record = Ok (Some 0).
Proof.
  apply (X10_days_to_birthday_zero christmas_2024 john_record
           {| Birthday.value := john_birthday |}).
  - unfold date.valid. vm_compute. intuition discriminate.
  - reflexivity.
  - split; reflexivity.
Defined.

(** [replace(year=y)] on a valid date fails for a year out of range
    and for 29 February in a year that is not a leap year. *)
Lemma replace_year_spec d y :
  date.valid d ->
  date.replace_year d y
  = if (1 <=? y) && (y <=? 9999)
    then if is_leap_day d && negb (date.is_leap y)
         then Raise (ValueError "day is out of range for month")
         else Ok {| date.year := y; date.month := date.month d;
                    date.day := date.day d |}
    else Raise (ValueError "year is out of range").
Proof.
  intros (_ & Hm & Hd). unfold date.replace_year, date.new, is_leap_day,
    date.MINYEAR, date.MAXYEAR.
  destruct ((1 <=? y) && (y <=? 9999)); cbn [negb]; [| reflexivity].
  replace ((1 <=? date.month d) && (date.month d <=? 12)) with true
    by (symmetry; apply andb_true_iff; split; apply Z.leb_le; lia).
  cbn [negb]. unfold date.days_in_month in *.
  destruct (Z.eqb_spec (date.month d) 2) as [E2 | N2].
  - rewrite E2 in *. cbn [andb] in *.
    destruct (date.is_leap y), (date.is_leap (date.year d)); cbn in *;
      destruct (Z.eqb_spec (date.day d) 29); cbn;
      repeat match goal with
             | |- context [(?a <=? ?b)] => destruct (Z.leb_spec a b)
             end; cbn; try reflexivity; lia.
  - cbn [andb] in *.
    replace ((1 <=? date.day d)
             && (date.day d <=? date.DAYS_IN_MONTH (date.month d)))
      with true
      by (symmetry; apply andb_true_iff; split; apply Z.leb_le; lia).
    reflexivity.
Qed.

Lemma days_to_birthday_is_ok (today : date.t) (r : Record.t)
    (b : Birthday.t) :
  date.valid today -> date.valid (Birthday.value b) ->
  Record.birthday r = Some b ->
  is_ok (Record.days_to_birthday today r)
  = negb ((is_leap_day (Birthday.value b)
           && negb (date.is_leap (date.year today)))
          || (before_in_year (Birthday.value b) today
              && (is_leap_day (Birthday.value b)
                  || (date.year today =? 9999)))).
Proof.
  intros Htoday Hvalid Hb. unfold Record.days_to_birthday. rewrite Hb.
  rewrite (replace_year_spec _ (date.year today) Hvalid).
  destruct Htoday as (Hy & Htm & Htd).
  unfold date.MINYEAR, date.MAXYEAR in Hy.
  replace ((1 <=? date.year today) && (date.year today <=? 9999)) with true
    by (symmetry; apply andb_true_iff; split; apply Z.leb_le; lia).
  destruct (is_leap_day (Birthday.value b)) eqn:Hleap;
    destruct (date.is_leap (date.year today)) eqn:Ly; cbn [andb negb orb];
    cbn [bind_result is_ok]; try reflexivity.
  - (* 29 February, a leap year *)
    unfold date.lt, before_in_year. cbn [date.year date.month date.day].
    rewrite Z.ltb_irrefl, Z.eqb_refl. cbn [orb andb].
    destruct ((date.month (Birthday.value b) <? date.month today)
              || (date.month (Birthday.value b) =? date.month today)
                 && (date.day (Birthday.value b) <? date.day today));
      [| reflexivity].
    unfold date.replace_year, date.new, date.days_in_month.
    cbn [date.year date.month date.day].
    unfold is_leap_day in Hleap. apply andb_true_iff in Hleap.
    destruct Hleap as [Hm Hd]. apply Z.eqb_eq in Hm, Hd. rewrite Hm, Hd.
    rewrite (is_leap_succ _ Ly). cbn.
    destruct (negb _); reflexivity.
  - (* another day, a leap year *)
    unfold date.lt, before_in_year. cbn [date.year date.month date.day].
    rewrite Z.ltb_irrefl, Z.eqb_refl. cbn [orb andb].
    destruct ((date.month (Birthday.value b) <? date.month today)
              || (date.month (Birthday.value b) =? date.month today)
                 && (date.day (Birthday.value b) <? date.day today));
      [| reflexivity].
    rewrite (replace_year_spec
               {| date.year := date.year today;
                  date.month := date.month (Birthday.value b);
                  date.day := date.day (Birthday.value b) |}
               (date.year today + 1)).
    + unfold is_leap_day in *. cbn [date.month date.day]. rewrite Hleap.
      cbn [andb]. destruct (Z.eqb_spec (date.year today) 9999) as [E | N].
      * rewrite E. reflexivity.
      * replace ((1 <=? date.year today + 1)
                 && (date.year today + 1 <=? 9999)) with true
          by (symmetry; apply andb_true_iff; split; apply Z.leb_le; lia).
        reflexivity.
    + assert (Hnew := replace_year_spec _ (date.year today) Hvalid).
      replace ((1 <=? date.year today) && (date.year today <=? 9999))
        with true in Hnew
        by (symmetry; apply andb_true_iff; split; apply Z.leb_le; lia).
      rewrite Hleap in Hnew. cbn [andb] in Hnew.
      exact (proj2 (replace_year_ok _ _ _ Hnew)).
  - (* another day, not a leap year *)
    unfold date.lt, before_in_year. cbn [date.year date.month date.day].
    rewrite Z.ltb_irrefl, Z.eqb_refl. cbn [orb andb].
    destruct ((date.month (Birthday.value b) <? date.month today)
              || (date.month (Birthday.value b) =? date.month today)
                 && (date.day (Birthday.value b) <? date.day today));
      [| reflexivity].
    rewrite (replace_year_spec
               {| date.year := date.year today;
                  date.month := date.month (Birthday.value b);
                  date.day := date.day (Birthday.value b) |}
               (date.year today + 1)).
    + unfold is_leap_day in *. cbn [date.month date.day]. rewrite Hleap.
      cbn [andb]. destruct (Z.eqb_spec (date.year today) 9999) as [E | N].
      * rewrite E. reflexivity.
      * replace ((1 <=? date.year today + 1)
                 && (date.year today + 1 <=? 9999)) with true
          by (symmetry; apply andb_true_iff; split; apply Z.leb_le; lia).
        reflexivity.
    + assert (Hnew := replace_year_spec _ (date.year today) Hvalid).
      replace ((1 <=? date.year today) && (date.year today <=? 9999))
        with true in Hnew
        by (symmetry; apply andb_true_iff; split; apply Z.leb_le; lia).
      rewrite Hleap in Hnew. cbn [andb] in Hnew.
      exact (proj2 (replace_year_ok _ _ _ Hnew)).
Qed.

(** X11: when [days_to_birthday] raises. For a birthday other than
    29 February it raises only in the year 9999, once the birthday of
    that year has passed; for a birthday of 29 February it raises in
    every year that is not a leap year, and in a leap year once
    29 February has passed. The exception is a ValueError. *)
Theorem X11_days_to_birthday_failures (today : date.t) (r : Record.t)
    (b : Birthday.t) :
  date.valid today -> date.valid (Birthday.value b) ->
  Record.birthday r = Some b ->
  is_ok (Record.days_to_birthday today r)
  = negb ((is_leap_day (Birthday.value b)
           && negb (date.is_leap (date.year today)))
          || (before_in_year (Birthday.value b) today
              && (is_leap_day (Birthday.value b)
                  || (date.year today =? 9999))))
  /\ (forall e, Record.days_to_birthday today r = Raise e ->
        is_ValueError e = true)
  /\ (is_leap_day (Birthday.value b) = false -> date.year today < 9999 ->
      is_ok (Record.days_to_birthday today r) = true)
  /\ (is_leap_day (Birthday.value b) = true ->
      date.is_leap (date.year today) = false ->
      is_ok (Record.days_to_birthday today r) = false).
Proof.
  intros Htoday Hvalid Hb.
  pose proof (days_to_birthday_is_ok today r b Htoday Hvalid Hb) as E.
  split; [exact E |]. split; [| split].
  - intros e. apply days_to_birthday_raise.
  - intros Hleap Hy. rewrite E, Hleap.
    replace (date.year today =? 9999) with false
      by (symmetry; apply Z.eqb_neq; lia).
    cbn [andb orb]. rewrite andb_false_r. reflexivity.
  - intros Hleap Hy. rewrite E, Hleap, Hy. reflexivity.
Qed.

Lemma X11_days_to_birthday_failures_witness :
  is_ok (Record.days_to_birthday first_of_march_2024 leap_day_record) = false
  /\ is_ok (Record.days_to_birthday some_today john_record) = true.
Proof.
  split.
  - destruct (X11_days_to_birthday_failures first_of_march_2024
                leap_day_record {| Birthday.value := leap_day_2000 |})
      as [E _].
    + unfold date.valid. vm_compute. intuition discriminate.
    + unfold date.valid. vm_compute. intuition discriminate.
    + reflexivity.
    + rewrite E. reflexivity.
  - destruct (X11_days_to_birthday_failures some_today john_record
                {| Birthday.value := john_birthday |})
      as (_ & _ & H & _).
    + exact some_today_valid.
    + unfold date.valid. vm_compute. intuition discriminate.
    + reflexivity.
    + apply H; [reflexivity | cbn; lia].
Defined.

(** ** AddressBook.get_upcoming_birthdays: failures and the window *)

Lemma forallb_false_Exists_ok today (l : list Record.t) :
  forallb (fun r => is_ok (Record.days_to_birthday today r)) l = false ->
  Exists (fun r => is_ok (Record.days_to_birthday today r) = false) l.
Proof. apply forallb_false_Exists. Qed.

Lemma upcoming_is_ok today days data :
  is_ok (AddressBook.get_upcoming_birthdays today days data)
  = forallb (fun r => is_ok (Record.days_to_birthday today r))
      (dict_values data).
Proof.
  unfold AddressBook.get_upcoming_birthdays.
  destruct (forallb (fun r => is_ok (Record.days_to_birthday today r))
              (dict_values data)) eqn:E.
  - apply forallb_Forall in E.
    rewrite (upcoming_loop_ok today days _ [] E). reflexivity.
  - apply forallb_false_Exists_ok in E.
    destruct (upcoming_loop_raise today days _ [] E) as [msg ->].
    reflexivity.
Qed.

(** X12: [get_upcoming_birthdays] succeeds exactly when
    [days_to_birthday] succeeds for every record of the directory; one
    record for which it raises (a birthday of 29 February in a year
    that is not a leap year) makes the whole call raise, a ValueError,
    whatever the window and the other records are. *)
Theorem X12_upcoming_birthdays_failures (today : date.t) (days : Z)
    (data : AddressBook.t) :
  is_ok (AddressBook.get_upcoming_birthdays today days data)
  = forallb (fun r => is_ok (Record.days_to_birthday today r))
      (dict_values data)
  /\ (forall e, AddressBook.get_upcoming_birthdays today days data = Raise e ->
        is_ValueError e = true).
Proof.
  split; [apply upcoming_is_ok |].
  intros e H. pose proof (upcoming_is_ok today days data) as Hok.
  rewrite H in Hok. cbn in Hok. symmetry in Hok.
  apply forallb_false_Exists_ok in Hok.
  destruct (upcoming_loop_raise today days _ [] Hok) as [msg E].
  unfold AddressBook.get_upcoming_birthdays in H. rewrite E in H.
  injection H as <-. reflexivity.
Qed.

(** X13: a wider window never loses a record: when the call succeeds
    for a window, it succeeds for every larger one and returns every
    record it returned for the smaller; from a window of 365 days on it
    returns every record that has a birthday. *)
Theorem X13_upcoming_birthdays_window (today : date.t) (days1 days2 : Z)
    (data : AddressBook.t) (l1 : list Record.t) :
  date.valid today -> days1 <= days2 ->
  AddressBook.get_upcoming_birthdays today days1 data = Ok l1 ->
  exists l2,
    AddressBook.get_upcoming_birthdays today days2 data = Ok l2
    /\ (forall r, In r l1 -> In r l2)
    /\ (365 <= days2 -> l2 = filter has_birthday (dict_values data)).
Proof.
  intros Htoday Hle H1.
  assert (Hall : Forall
    (fun r => is_ok (Record.days_to_birthday today r) = true)
    (dict_values data)).
  { apply forallb_Forall.
    rewrite <- (upcoming_is_ok today days1 data), H1. reflexivity. }
  unfold AddressBook.get_upcoming_birthdays in *.
  rewrite (upcoming_loop_ok today days1 _ [] Hall) in H1.
  rewrite (upcoming_loop_ok today days2 _ [] Hall).
  injection H1 as <-. cbn [app]. eexists. split; [reflexivity |]. split.
  - intros r Hr. apply filter_In in Hr. destruct Hr as [Hin Hr].
    apply filter_In. split; [exact Hin |].
    apply is_upcoming_spec in Hr. destruct Hr as (b & n & Hb & Hn & Hd).
    apply is_upcoming_spec. exists b, n. repeat split; auto. lia.
  - intros H365. apply filter_ext_in. intros r Hin.
    rewrite Forall_forall in Hall. specialize (Hall r Hin).
    unfold is_upcoming, has_birthday.
    destruct (Record.birthday r) as [b |] eqn:Hb; [| reflexivity].
    destruct (Record.days_to_birthday today r) as [[n |] | e] eqn:Hn.
    + apply Z.leb_le.
      pose proof (days_to_birthday_le_365 today r n Htoday Hn). lia.
    + apply days_to_birthday_none in Hn. rewrite Hn in Hb. discriminate.
    + discriminate.
Qed.

Lemma X13_upcoming_birthdays_window_witness :
  exists l2,
    AddressBook.get_upcoming_birthdays some_today 365 demo_book = Ok l2
    /\ (forall r, In r [john_record] -> In r l2)
    /\ (365 <= 365 -> l2 = filter has_birthday (dict_values demo_book)).
Proof.
  apply (X13_upcoming_birthdays_window some_today 7 365 demo_book
           [john_record] some_today_valid).
  - lia.
  - vm_compute. reflexivity.
Defined.

(** ** Formatting a birthday and reading it again *)

Lemma zfill_2_of_number n :
  0 <= n <= 99 ->
  date.zfill 2 (date.decimal n) = [48 + n / 10; 48 + n mod 10]
  /\ ascii_digit (48 + n / 10) = true /\ ascii_digit (48 + n mod 10) = true
  /\ 10 * digit_of (48 + n / 10) + digit_of (48 + n mod 10) = n.
Proof.
  intros Hn.
  assert (Ha : ascii_digit (48 + n / 10) = true)
    by (apply ascii_digit_spec; Z.div_mod_to_equations; lia).
  assert (Hb : ascii_digit (48 + n mod 10) = true)
    by (apply ascii_digit_spec; Z.div_mod_to_equations; lia).
  assert (E : 10 * digit_of (48 + n / 10) + digit_of (48 + n mod 10) = n)
    by (unfold digit_of; Z.div_mod_to_equations; lia).
  repeat split; try assumption.
  replace (date.decimal n)
    with (date.decimal (10 * digit_of (48 + n / 10) + digit_of (48 + n mod 10)))
    by (rewrite E; reflexivity).
  apply zfill_2_decimal; assumption.
Qed.

Lemma year_digits y :
  1 <= y <= 9999 ->
  let a := 48 + y / 1000 in
  let b := 48 + (y / 100) mod 10 in
  let c := 48 + (y / 10) mod 10 in
  let d := 48 + y mod 10 in
  Forall (fun x => ascii_digit x = true) [a; b; c; d]
  /\ 1000 * digit_of a + 100 * digit_of b + 10 * digit_of c + digit_of d = y.
Proof.
  intros Hy a b c d. split.
  - repeat constructor; apply ascii_digit_spec; unfold a, b, c, d;
      Z.div_mod_to_equations; lia.
  - unfold a, b, c, d, digit_of. Z.div_mod_to_equations. lia.
Qed.

Lemma strict_intro d1 d2 m1 m2 y1 y2 y3 y4 dt :
  Forall (fun c => ascii_digit c = true) [d1; d2; m1; m2; y1; y2; y3; y4] ->
  date.new
    (1000 * digit_of y1 + 100 * digit_of y2 + 10 * digit_of y3 + digit_of y4)
    (10 * digit_of m1 + digit_of m2)
    (10 * digit_of d1 + digit_of d2) = Ok dt ->
  strict_DDMMYYYY [d1; d2; 46; m1; m2; 46; y1; y2; y3; y4] = Some dt.
Proof.
  intros Hd Hnew. unfold strict_DDMMYYYY.
  apply forallb_Forall in Hd. rewrite Hd, Hnew. reflexivity.
Qed.

(** X14: the rendering of a birthday can be read back. For every valid
    date whose year is 1000 or later, or whatever the year where [%Y]
    is zero-filled, the text [strftime("%d.%m.%Y")] gives is of the
    strict form DD.MM.YYYY and [Birthday] of that text holds the same
    date. *)
Theorem X14_format_then_parse (style : date.year_style) (dt : date.t) :
  date.valid dt ->
  style = date.YearZeroFilled \/ 1000 <= date.year dt ->
  strict_DDMMYYYY (date.strftime_dmY style dt) = Some dt
  /\ Birthday.init (date.strftime_dmY style dt)
     = Ok {| Birthday.value := dt |}.
Proof.
  intros Hvalid Hstyle.
  assert (Hs : strict_DDMMYYYY (date.strftime_dmY style dt) = Some dt).
  { destruct Hvalid as (Hy & Hm & Hd).
    unfold date.MINYEAR, date.MAXYEAR in Hy.
    pose proof (days_in_month_bounds (date.year dt) _ Hm) as Hdim.
    destruct (zfill_2_of_number (date.day dt)) as (Ed & Hd1 & Hd2 & Edv);
      [lia |].
    destruct (zfill_2_of_number (date.month dt)) as (Em & Hm1 & Hm2 & Emv);
      [lia |].
    destruct (year_digits (date.year dt) Hy) as [Hyd Eyv].
    inversion Hyd as [| ? ? Hy1 Hyd1]; subst.
    inversion Hyd1 as [| ? ? Hy2 Hyd2]; subst.
    inversion Hyd2 as [| ? ? Hy3 Hyd3]; subst.
    inversion Hyd3 as [| ? ? Hy4 _]; subst.
    assert (EY : date.format_Y style (date.year dt)
                 = [48 + date.year dt / 1000;
                    48 + (date.year dt / 100) mod 10;
                    48 + (date.year dt / 10) mod 10;
                    48 + date.year dt mod 10]).
    { rewrite <- Eyv at 1.
      destruct Hstyle as [-> | H1000].
      - apply zfill_4_decimal; assumption.
      - destruct style; cbn [date.format_Y].
        + apply decimal_year; try assumption. rewrite Eyv. exact H1000.
        + apply zfill_4_decimal; assumption. }
    unfold date.strftime_dmY. rewrite Ed, Em, EY. cbn [app].
    apply strict_intro.
    - repeat constructor; assumption.
    - rewrite Edv, Emv, Eyv. apply date_new_ok.
      split; [destruct dt; reflexivity |]. unfold date.days_in_month in *.
      repeat split; lia. }
  split; [exact Hs |].
  apply Birthday_init_ok. cbn. apply strict_strptime. exact Hs.
Qed.

Lemma X14_format_then_parse_witness :
  strict_DDMMYYYY (date.strftime_dmY date.YearPlain john_birthday)
  = Some john_birthday
  /\ Birthday.init (date.strftime_dmY date.YearPlain john_birthday)
     = Ok {| Birthday.value := john_birthday |}.
Proof.
  apply (X14_format_then_parse date.YearPlain john_birthday).
  - unfold date.valid. vm_compute. intuition discriminate.
  - right. cbn. lia.
Defined.

(** ** Record.__str__ *)

Lemma strict_strftime style s dt :
  strict_DDMMYYYY s = Some dt ->
  style = date.YearZeroFilled \/ 1000 <= date.year dt ->
  date.strftime_dmY style dt = s.
Proof.
  intros Hs Hstyle. apply strict_inv in Hs.
  destruct Hs as (d1 & d2 & m1 & m2 & y1 & y2 & y3 & y4 & -> & Hd & Hnew).
  apply date_new_ok in Hnew. destruct Hnew as (-> & _).
  inversion Hd as [| ? ? Hd1 Hl1]; subst.
  inversion Hl1 as [| ? ? Hd2 Hl2]; subst.
  inversion Hl2 as [| ? ? Hm1 Hl3]; subst.
  inversion Hl3 as [| ? ? Hm2 Hl4]; subst.
  inversion Hl4 as [| ? ? Hy1 Hl5]; subst.
  inversion Hl5 as [| ? ? Hy2 Hl6]; subst.
  inversion Hl6 as [| ? ? Hy3 Hl7]; subst.
  inversion Hl7 as [| ? ? Hy4 _]; subst.
  unfold date.strftime_dmY. cbn [date.year date.month date.day] in *.
  rewrite !zfill_2_decimal by assumption.
  assert (HY : date.format_Y style
                 (1000 * digit_of y1 + 100 * digit_of y2
                  + 10 * digit_of y3 + digit_of y4) = [y1; y2; y3; y4]).
  { destruct Hstyle as [-> | Hy].
    - apply zfill_4_decimal; assumption.
    - destruct style; cbn [date.format_Y].
      + apply decimal_year; assumption.
      + apply zfill_4_decimal; assumption. }
  rewrite HY. reflexivity.
Qed.

Lemma join_snoc sep parts p :
  parts <> [] -> join sep (parts ++ [p]) = join sep parts ++ sep ++ p.
Proof.
  induction parts as [| q parts IH]; intros Hne; [destruct (Hne eq_refl) |].
  destruct parts as [| q' parts].
  - reflexivity.
  - change (join sep ((q :: q' :: parts) ++ [p]))
      with (q ++ sep ++ join sep ((q' :: parts) ++ [p])).
    rewrite IH by discriminate.
    change (join sep (q :: q' :: parts))
      with (q ++ sep ++ join sep (q' :: parts)).
    rewrite <- !app_assoc. reflexivity.
Qed.

(** X15: the text of a record shows a birthday as it was entered:
    after [add_birthday(s)] with [s] of the strict form DD.MM.YYYY, a
    valid date of the year 1000 or later, [__str__] is the name, the
    phones and then [s] itself. A record without birthday shows
    "No birthday". *)
Theorem X15_str_shows_birthday (style : date.year_style) (r : Record.t)
    (s : str) (dt : date.t) :
  strict_DDMMYYYY s = Some dt -> 1000 <= date.year dt ->
  Record.to_str style (snd (Record.add_birthday s r))
  = lit "Contact name: " ++ Name.value (Record.name r) ++ lit ", phones: "
      ++ phones_text r ++ lit ", birthday: " ++ s.
Proof.
  intros Hs Hy. rewrite add_birthday_run.
  rewrite (proj2 (Birthday_init_ok s {| Birthday.value := dt |}))
    by (cbn; apply strict_strptime; exact Hs).
  unfold Record.to_str, phones_text.
  cbn [snd Record.set_birthday Record.birthday Record.phones Record.name
       Birthday.value].
  rewrite (strict_strftime style s dt Hs) by (right; exact Hy).
  reflexivity.
Qed.

Lemma X15_str_shows_birthday_witness :
  Record.to_str date.YearPlain
    (snd (Record.add_birthday (lit "25.12.1990") three_phones))
  = lit "Contact name: John, phones: 0937777777; 5555555555; 9876543210, birthday: 25.12.1990".
Proof.
  apply (X15_str_shows_birthday date.YearPlain three_phones
           (lit "25.12.1990") john_birthday).
  - vm_compute. reflexivity.
  - cbn. lia.
Defined.

(** X16: the text of a record lists the phones in the order they were
    added, separated by "; ": after [add_phone(v)] with a valid [v],
    [__str__] gives the name, then the phones of before followed by
    "; " and [v] (or [v] alone when the record had no phone), then the
    birthday; the text of the record itself is the name, its phones so
    listed and its birthday. *)
Theorem X16_str_lists_phones (style : date.year_style) (r : Record.t)
    (v : str) :
  ten_digits v = true ->
  Record.to_str style (snd (Record.add_phone v r))
  = lit "Contact name: " ++ Name.value (Record.name r) ++ lit ", phones: "
      ++ match Record.phones r with
         | [] => v
         | _ :: _ => phones_text r ++ lit "; " ++ v
         end
      ++ lit ", birthday: " ++ birthday_text style r
  /\ Record.to_str style r
     = lit "Contact name: " ++ Name.value (Record.name r) ++ lit ", phones: "
         ++ phones_text r ++ lit ", birthday: " ++ birthday_text style r.
Proof.
  intros Hv. split; [| reflexivity]. rewrite add_phone_run.
  rewrite (proj2 (Phone_init_ok v {| Phone.value := v |})) by auto.
  unfold Record.to_str, phones_text, birthday_text.
  cbn [snd Record.set_phones Record.phones Record.name Record.birthday].
  rewrite map_app. cbn [map Phone.value].
  destruct (Record.phones r) as [| p l]; [reflexivity |].
  rewrite join_snoc by discriminate. reflexivity.
Qed.

Lemma X16_str_lists_phones_witness :
  Record.to_str date.YearPlain
    (snd (Record.add_phone (lit "0931112233") three_phones))
  = lit "Contact name: John, phones: 0937777777; 5555555555; 9876543210; 0931112233, birthday: No birthday".
Proof.
  destruct (X16_str_lists_phones date.YearPlain three_phones
              (lit "0931112233")) as [E _].
  - vm_compute. reflexivity.
  - exact E.
Defined.

(** ** The demo driver *)

Lemma print_all_run lines out : print_all lines out = (Ok tt, out ++ lines).
Proof.
  revert out. induction lines as [| l lines IH]; intros out; cbn.
  - unfold ret. rewrite app_nil_r. reflexivity.
  - unfold bind, print. rewrite IH, <- app_assoc. reflexivity.
Qed.

Lemma upcoming_subset today days data l :
  AddressBook.get_upcoming_birthdays today days data = Ok l ->
  forall r, In r l -> In r (dict_values data).
Proof.
  intros Hu r Hr.
  assert (Hall : Forall
    (fun r => is_ok (Record.days_to_birthday today r) = true)
    (dict_values data)).
  { apply forallb_Forall.
    rewrite <- (upcoming_is_ok today days data), Hu. reflexivity. }
  unfold AddressBook.get_upcoming_birthdays in Hu.
  rewrite (upcoming_loop_ok today days _ [] Hall) in Hu.
  injection Hu as <-. apply filter_In in Hr. tauto.
Qed.

Lemma main_run style today out :
  main style today out
  = match AddressBook.get_upcoming_birthdays today 7 main_book with
    | Ok upcoming =>
        (Ok tt, out ++ main_listing ++ map upcoming_line upcoming)
    | Raise e => (Raise e, out ++ main_listing)
    end.
Proof.
  assert (E : main style today out
    = (upcoming_birthdays <~
         pure (AddressBook.get_upcoming_birthdays today 7 main_book) ;;
       print_all
         (map (fun record =>
                 lit "Upcoming birthday: " ++ Record.to_str style record)
            upcoming_birthdays)) (out ++ main_listing)).
  { destruct style; unfold main, bind, on, pure, print; cbn;
      rewrite <- !app_assoc; reflexivity. }
  rewrite E. unfold bind, pure.
  destruct (AddressBook.get_upcoming_birthdays today 7 main_book)
    as [upcoming |] eqn:Hu; [| reflexivity].
  rewrite print_all_run, <- app_assoc. do 3 f_equal.
  apply map_ext_in. intros r Hr.
  pose proof (upcoming_subset today 7 main_book upcoming Hu r Hr) as Hin.
  destruct Hin as [<- | [<- | []]]; destruct style; vm_compute; reflexivity.
Qed.

(** X17: the driver, whatever the date, first prints the same six
    lines: the two records, John's record with the first phone edited,
    "John: 5555555555", the message of the deletion, and the book, which
    now holds John alone and shows the edit made through the record
    [find] returned. Before the year 9999 it never raises, and then
    prints one line for each of John and Vovan whose birthday is at most
    7 days away, in that order. *)
Theorem X17_main_output (style : date.year_style) (today : date.t) :
  date.valid today ->
  (exists outcome rest,
     main style today [] = (outcome, main_listing ++ rest))
  /\ (date.year today < 9999 ->
      main style today []
      = (Ok tt,
         main_listing
           ++ map upcoming_line
                (filter (is_upcoming today 7) [john_edited; vova_record]))).
Proof.
  intros Htoday. split.
  - rewrite main_run.
    destruct (AddressBook.get_upcoming_birthdays today 7 main_book)
      as [upcoming | e].
    + exists (Ok tt), (map upcoming_line upcoming). reflexivity.
    + exists (Raise e), []. reflexivity.
  - intros Hy. rewrite main_run.
    assert (Hall : Forall
      (fun r => is_ok (Record.days_to_birthday today r) = true)
      (dict_values main_book)).
    { assert (H9 : (date.year today =? 9999) = false)
        by (apply Z.eqb_neq; lia).
      unfold main_book, dict_values. cbn [map snd].
      constructor; [| constructor; [| constructor]]; cbv beta.
      - rewrite (days_to_birthday_is_ok today john_edited
                   {| Birthday.value := john_birthday |} Htoday);
          [| unfold date.valid; vm_compute; intuition discriminate
           | reflexivity].
        rewrite H9. cbn. rewrite andb_false_r. reflexivity.
      - rewrite (days_to_birthday_is_ok today vova_record
                   {| Birthday.value :=
                        {| date.year := 1992; date.month := 7;
                           date.day := 31 |} |} Htoday);
          [| unfold date.valid; vm_compute; intuition discriminate
           | reflexivity].
        rewrite H9. cbn. rewrite andb_false_r. reflexivity. }
    unfold AddressBook.get_upcoming_birthdays.
    rewrite (upcoming_loop_ok today 7 _ [] Hall). reflexivity.
Qed.

Lemma X17_main_output_witness :
  main date.YearPlain some_today []
  = (Ok tt,
     main_listing
       ++ [ lit "Upcoming birthday: Contact name: John, phones: 0936666666; 5555555555, birthday: 25.12.1990" ]).
Proof.
  destruct (X17_main_output date.YearPlain some_today some_today_valid)
    as [_ H].
  rewrite H; [reflexivity | cbn; lia].
Defined.

